(** * Lead generation engine: the Google Maps pipeline

    A shallow embedding of [py_lead_generation/src/google_maps/engine.py]
    (class [GoogleMapsEngine]) and the properties of its coordinate parser,
    its coordinate filter, its scroll loop and its CSV sink.

    Conventions of the embedding.
    - A Python [str] is a [string]; URLs are taken to be ASCII, so the
      regular-expression class [\d] is the ten digits [0-9].
    - Calls into the browser (Playwright) return normally; what they answer
      and how long they take is read from an oracle, the [browser] record.
      An answer can be [None]: the results pane may not be found, a link may
      have no [href].  The exceptions modelled are the ones the engine's own
      statements raise: the two guards on [self.page], [leftbar.hover()] on
      a pane that was not found ([AttributeError]), the test ['!3d' in url]
      on a missing [href] ([TypeError]), the [float] conversions in [run]
      and the guard of [save_to_csv].
    - [time.time()] reads a clock, a rational number of seconds, that each
      awaited call advances by the duration the oracle gives it.
    - A file is the list of the rows written to it; the file system is a
      finite map from file names to files.
    - [print] is not modelled. *)

From Stdlib Require Import ZArith QArith Qabs Lqa Ascii String.
From stdpp Require Import base option list strings gmap.

Local Open Scope string_scope.

(** ** Python strings *)

Module Str.

Fixpoint take (n : nat) (s : string) : string :=
  match n, s with
  | S n', String c s' => String c (take n' s')
  | _, _ => EmptyString
  end.

Fixpoint drop (n : nat) (s : string) : string :=
  match n, s with
  | S n', String _ s' => drop n' s'
  | _, _ => s
  end.

(** [p] is the beginning of [s]. *)
Fixpoint prefix (p s : string) : bool :=
  match p, s with
  | EmptyString, _ => true
  | String a p', String c s' => Ascii.eqb a c && prefix p' s'
  | String _ _, EmptyString => false
  end.

(** [p in s] on strings: [p] starts at some position of [s]. *)
Fixpoint contains (p s : string) : bool :=
  prefix p s ||
  match s with
  | EmptyString => false
  | String _ s' => contains p s'
  end.

(** Length of the longest prefix of [s] made of characters of [cls]. *)
Fixpoint span (cls : ascii -> bool) (s : string) : nat :=
  match s with
  | String c s' => if cls c then S (span cls s') else 0
  | EmptyString => 0
  end.

Lemma contains_prefix p s : prefix p s = true -> contains p s = true.
Proof. destruct s; simpl; intros ->; reflexivity. Qed.

Lemma contains_cons p c s : contains p s = true -> contains p (String c s) = true.
Proof. simpl. intros ->. apply orb_true_r. Qed.

Lemma contains_drop p n s : contains p (drop n s) = true -> contains p s = true.
Proof.
  revert s. induction n as [|n IH]; intros s; [destruct s; exact id|].
  destruct s as [|c s]; [exact id|].
  simpl drop. intros H. apply contains_cons, IH, H.
Qed.

End Str.

(** ** The two patterns of [extract_lat_lang_from_url]

    A pattern is a sequence of literal characters and capture groups of the
    form [(cls+)].  [match_here] is the backtracking matcher of [re]: a group
    is greedy, it first takes the longest run of [cls] and gives characters
    back one at a time until the rest of the pattern matches. *)

Module Re.

Inductive token :=
| Lit (c : ascii)
| Cap (cls : ascii -> bool).

Definition regex := list token.

Fixpoint match_here (re : regex) (s : string) : option (list string) :=
  match re with
  | [] => Some []
  | Lit c :: re' =>
      match s with
      | String c' s' => if Ascii.eqb c c' then match_here re' s' else None
      | EmptyString => None
      end
  | Cap cls :: re' =>
      (fix give_back (k : nat) : option (list string) :=
         match k with
         | 0 => None
         | S k' =>
             match match_here re' (Str.drop k s) with
             | Some gs => Some (Str.take k s :: gs)
             | None => give_back k'
             end
         end) (Str.span cls s)
  end.

(** [re.search]: the match at the leftmost position that has one. *)
Fixpoint search (re : regex) (s : string) : option (list string) :=
  match match_here re s with
  | Some gs => Some gs
  | None =>
      match s with
      | EmptyString => None
      | String _ s' => search re s'
      end
  end.

(** Number of capture groups of a pattern. *)
Fixpoint groups (re : regex) : nat :=
  match re with
  | [] => 0
  | Lit _ :: re' => groups re'
  | Cap _ :: re' => S (groups re')
  end.

End Re.

Definition is_digit (c : ascii) : bool :=
  let n := nat_of_ascii c in (48 <=? n)%nat && (n <=? 57)%nat.

(** The character class [[-.\d]]. *)
Definition coord_char (c : ascii) : bool :=
  Ascii.eqb c "-" || Ascii.eqb c "." || is_digit c.

(** [!3d([-.\d]+)!4d([-.\d]+)] *)
Definition place_re : Re.regex :=
  [Re.Lit "!"; Re.Lit "3"; Re.Lit "d"; Re.Cap coord_char;
   Re.Lit "!"; Re.Lit "4"; Re.Lit "d"; Re.Cap coord_char].

(** [@([-.\d]+),([-.\d]+),] *)
Definition center_re : Re.regex :=
  [Re.Lit "@"; Re.Cap coord_char; Re.Lit ","; Re.Cap coord_char; Re.Lit ","].

Definition NO_INFO : string := "No Info".

(** [match.groups()] of a two-group pattern, or the sentinel pair. *)
Definition groups_or_no_info (m : option (list string)) : string * string :=
  match m with
  | Some [lat; lang] => (lat, lang)
  | _ => (NO_INFO, NO_INFO)
  end.

Definition extract_lat_lang_from_url (url : string) : string * string :=
  let m :=
    if Str.contains "!3d" url && Str.contains "!4d" url
    then Re.search place_re url
    else Re.search center_re url in
  groups_or_no_info m.

Example extract_place :
  extract_lat_lang_from_url "https://www.google.com/maps/place/Gym/data=!4m7!3m6!8m2!3d51.1282!4d71.4306!16s?entry=ttu"
  = ("51.1282", "71.4306").
Proof. vm_compute. reflexivity. Qed.

Example extract_center :
  extract_lat_lang_from_url "https://www.google.com/maps/search/gym%20Astana/@51.1801,71.446,12z/data=!3m1!4b1?entry=ttu"
  = ("51.1801", "71.446").
Proof. vm_compute. reflexivity. Qed.

Example extract_leftmost : extract_lat_lang_from_url "@1,2@3,4," = ("3", "4").
Proof. vm_compute. reflexivity. Qed.

Example extract_none : extract_lat_lang_from_url "https://example.com/" = ("No Info", "No Info").
Proof. vm_compute. reflexivity. Qed.

(** ** Python floats

    [float(s)] and [round(x, 1)] on binary64.  A finite double is held as
    the rational it denotes, so that [==] is equality of values (and
    [-0.0 == 0.0]); the only other values that a run of digits can give are
    the two infinities.  [float] is embedded on the strings it can receive
    here: the captures of the patterns above, over the alphabet [[-.0-9]],
    and the sentinel, which like every other string of that alphabet that
    is not a decimal literal makes it raise [ValueError]. *)

Module PyFloat.

Inductive t :=
| Fin (q : Q)
| Inf (negative : bool).

(** Nearest integer to [a / b], ties to the even one ([0 <= a], [0 < b]). *)
Definition half_even_div (a b : Z) : Z :=
  let q := (a / b)%Z in
  let r := (a mod b)%Z in
  match (2 * r ?= b)%Z with
  | Lt => q
  | Gt => (q + 1)%Z
  | Eq => if Z.even q then q else (q + 1)%Z
  end.

(** [floor (log2 (p / d))] for [0 < p], [0 < d]. *)
Definition log2_ratio (p d : Z) : Z :=
  let l := (Z.log2 p - Z.log2 d)%Z in
  let reaches :=
    if (0 <=? l)%Z then (2 ^ l * d <=? p)%Z else (d <=? p * 2 ^ (- l))%Z in
  if reaches then l else (l - 1)%Z.

(** Round a rational to the nearest binary64, ties to even: 53 bits of
    mantissa, least exponent [-1074], overflow to infinity at [2^1024]. *)
Definition rnd64 (q : Q) : t :=
  let p := Z.abs (Qnum q) in
  let d := Zpos (Qden q) in
  let negative := (Qnum q <? 0)%Z in
  if (p =? 0)%Z then Fin 0
  else
    let ex := Z.max (log2_ratio p d - 52) (-1074) in
    let m :=
      if (0 <=? ex)%Z then half_even_div p (d * 2 ^ ex)
      else half_even_div (p * 2 ^ (- ex)) d in
    let sm := if negative then (- m)%Z else m in
    if (0 <=? ex)%Z then
      if (2 ^ 1024 <=? m * 2 ^ ex)%Z then Inf negative
      else Fin (Qred (inject_Z (sm * 2 ^ ex)))
    else Fin (Qred (Qmake sm (Z.to_pos (2 ^ (- ex))))).

Definition digit_value (c : ascii) : Z := Z.of_nat (nat_of_ascii c) - 48.

(** Digits with at most one point and at least one digit: the integer
    the digits spell and the number of digits after the point. *)
Fixpoint parse_decimal (s : string) (seen_point any_digit : bool) (n : Z) (k : nat)
  : option (Z * nat) :=
  match s with
  | EmptyString => if any_digit then Some (n, k) else None
  | String c s' =>
      if is_digit c then
        parse_decimal s' seen_point true (10 * n + digit_value c)%Z
                      (if seen_point then S k else k)
      else if Ascii.eqb c "." then
        if seen_point then None else parse_decimal s' true any_digit n k
      else None
  end.

Definition of_string (s : string) : option t :=
  let (negative, body) :=
    match s with
    | String "-"%char s' => (true, s')
    | _ => (false, s)
    end in
  match parse_decimal body false false 0%Z 0 with
  | Some (n, k) =>
      let sn := if negative then (- n)%Z else n in
      Some (rnd64 (Qmake sn (Z.to_pos (10 ^ Z.of_nat k))))
  | None => None
  end.

(** [round(x, 1)]: the decimal with one digit after the point nearest to
    the exact value of [x], ties to even, converted back to a double;
    infinities round to themselves. *)
Definition round1 (x : t) : t :=
  match x with
  | Fin q =>
      let a := Z.abs (Qnum q * 10) in
      let tenths := half_even_div a (Zpos (Qden q)) in
      let st := if (Qnum q <? 0)%Z then (- tenths)%Z else tenths in
      rnd64 (Qmake st 10)
  | Inf _ => x
  end.

(** [x == y] *)
Definition eqb (x y : t) : bool :=
  match x, y with
  | Fin a, Fin b => Qeq_bool a b
  | Inf a, Inf b => Bool.eqb a b
  | _, _ => false
  end.

(** The two floats have the same value. *)
Definition same_value (x y : t) : Prop :=
  match x, y with
  | Fin a, Fin b => a == b
  | Inf a, Inf b => a = b
  | _, _ => False
  end.

Lemma eqb_same_value x y : eqb x y = true <-> same_value x y.
Proof.
  destruct x as [a|a], y as [c|c]; simpl; try (split; [discriminate|contradiction]).
  - apply Qeq_bool_iff.
  - apply Bool.eqb_true_iff.
Qed.

End PyFloat.

(** The tenths [round1] converts back to a double. *)
Definition tenths (q : Q) : Z :=
  let t := PyFloat.half_even_div (Z.abs (Qnum q * 10)) (Zpos (Qden q)) in
  if (Qnum q <? 0)%Z then (- t)%Z else t.

(** The number a decimal literal spells, before any conversion to binary. *)
Definition decimal_value (s : string) : option Q :=
  let (negative, body) :=
    match s with
    | String "-"%char s' => (true, s')
    | _ => (false, s)
    end in
  match PyFloat.parse_decimal body false false 0%Z 0 with
  | Some (n, k) =>
      let sn := if negative then (- n)%Z else n in
      Some (Qmake sn (Z.to_pos (10 ^ Z.of_nat k)))
  | None => None
  end.

(** [t / 10] is [q] rounded to one decimal digit: the decimal with one digit
    after the point that is nearest to [q], and of two that are as near the
    one whose digit is even. *)
Definition rounds_to_tenth (q : Q) (t : Z) : Prop :=
  (Qabs (10 * q - inject_Z t) <= 1 # 2)%Q /\
  (Qabs (10 * q - inject_Z t) == 1 # 2 -> Z.even t = true)%Q.

(** The value of a conversion that gave a finite double. *)
Definition fin_value (x : option PyFloat.t) : Q :=
  match x with
  | Some (PyFloat.Fin q) => q
  | _ => 0%Q
  end.

Example float_tenth : PyFloat.of_string "0.1"
  = Some (PyFloat.Fin (3602879701896397 # 36028797018963968)).
Proof. vm_compute. reflexivity. Qed.

Example round_quarter :
  option_map PyFloat.round1 (PyFloat.of_string "0.25") = PyFloat.of_string "0.2".
Proof. vm_compute. reflexivity. Qed.

Example round_below_half :
  option_map PyFloat.round1 (PyFloat.of_string "0.35") = PyFloat.of_string "0.3".
Proof. vm_compute. reflexivity. Qed.

Example float_sentinel : PyFloat.of_string NO_INFO = None.
Proof. reflexivity. Qed.

(** ** Exceptions *)

Inductive exn :=
| ValueError (msg : string)
| NotImplementedError (msg : string)
| AttributeError (msg : string)
| TypeError (msg : string).

Inductive result (A : Type) :=
| Ok (a : A)
| Raise (e : exn).
Arguments Ok {A} a.
Arguments Raise {A} e.

#[global] Instance result_ret : MRet result := fun A a => Ok a.
#[global] Instance result_bind : MBind result := fun A B k r =>
  match r with
  | Ok a => k a
  | Raise e => Raise e
  end.

(** [float(s)] as the engine calls it. *)
Definition float (s : string) : result PyFloat.t :=
  match PyFloat.of_string s with
  | Some x => Ok x
  | None =>
      Raise (ValueError (String.append "could not convert string to float: '"
                                       (String.append s "'")))
  end.

(** The comparison of [run]: the four conversions in the order the
    statements make them, then the two equalities. *)
Definition coords_match (main place : string * string) : result bool :=
  main_lat ← float main.1;
  let main_lat_rounded := PyFloat.round1 main_lat in
  main_lang ← float main.2;
  let main_lang_rounded := PyFloat.round1 main_lang in
  place_lat ← float place.1;
  let place_lat_rounded := PyFloat.round1 place_lat in
  place_lang ← float place.2;
  let place_lang_rounded := PyFloat.round1 place_lang in
  mret (PyFloat.eqb main_lat_rounded place_lat_rounded &&
        PyFloat.eqb main_lang_rounded place_lang_rounded).

Example match_astana :
  coords_match ("51.1801", "71.4460") ("51.18", "71.44") = Ok true.
Proof. vm_compute. reflexivity. Qed.

(** [71.4460] rounds to [71.4] and [71.45] to [71.5]. *)
Example mismatch_across_tenth :
  coords_match ("51.1801", "71.4460") ("51.18", "71.45") = Ok false.
Proof. vm_compute. reflexivity. Qed.

Example mismatch_new_york :
  coords_match ("51.1801", "71.4460") ("40.71", "-74.00") = Ok false.
Proof. vm_compute. reflexivity. Qed.

(** ** The world: browser, clock and files *)

Definition row := list string.

Inductive selector :=
| LeftBar       (* [role=main] *)
| EndMarker     (* .m6QErb.tLjsW.eKbjU *)
| ResultLinks.  (* a.hfpxzc *)

Inductive mode := Append | Truncate.

Inductive event :=
| Goto (url : string)
| GotoNone      (* page.goto(None) *)
| Content
| QuerySelector (sel : selector)
| QuerySelectorAll (sel : selector)
| GetAttribute
| Hover
| Wheel (dy : Z)
| Sleep (seconds : Q)
| Open (name : string) (m : mode).

(** What the browser answers.  Awaited calls are numbered in the order the
    program makes them; [duration n e] is the time the [n]-th one takes when
    it is the call [e].  [pane_found n] tells whether the [n]-th call, when
    it is the query for the results pane, finds it, [end_marker n] whether
    it finds the end marker when it is the query for it, and [hrefs n] lists
    the [href] of each link found when it is the query for the links, [None]
    for a link without one. *)
Record browser := {
  duration : nat -> event -> Q;
  pane_found : nat -> bool;
  end_marker : nat -> bool;
  hrefs : nat -> list (option string);
  content : nat -> string;
}.

Record world := {
  fs : gmap string (list row);
  clock : Q;
  ticks : nat;
  trace : list event;
}.

(** The fields [_parse_data_with_soup] selects from a detail page. *)
Inductive field := Title | Address | PhoneNumber | WebsiteURL.

Record engine := {
  url : string;
  page : bool;
  _entries : list row;
}.

Definition FIELD_NAMES : row :=
  ["Title"; "Address"; "PhoneNumber"; "WebsiteURL"; "GoogleMapsURL"; "PlaceLat"; "PlaceLang"].
Definition FILENAME : string := "google_maps_leads.csv".
Definition SLEEP_PER_SCROLL_S : Q := 2.
Definition SCROLL_TIME_DURATION_S : Q := 200.

(** [x > y] on rationals. *)
Definition Qgt_bool (x y : Q) : bool := negb (Qle_bool x y).

Definition with_fs (f : gmap string (list row)) (w : world) : world :=
  {| fs := f; clock := clock w; ticks := ticks w; trace := trace w |}.

Definition file (name : string) (w : world) : list row := default [] (fs w !! name).

(** [open(name, mode)]: ['a'] keeps what the file holds and creates it when
    it is missing, ['w'] empties it. *)
Definition open (name : string) (m : mode) (w : world) : world :=
  let old := match m with Append => file name w | Truncate => [] end in
  {| fs := <[name := old]> (fs w); clock := clock w; ticks := ticks w;
     trace := (trace w ++ [Open name m])%list |}.

(** [writer.writerow(r)] on the file [name]. *)
Definition writerow (name : string) (r : row) (w : world) : world :=
  with_fs (<[name := (file name w ++ [r])%list]> (fs w)) w.

(** [writer.writerows(rs)] *)
Definition writerows (name : string) (rs : list row) (w : world) : world :=
  foldl (fun w r => writerow name r w) w rs.

Definition append_entry (data : row) (self : engine) : engine :=
  {| url := url self; page := page self; _entries := (_entries self ++ [data])%list |}.

Section Engine.

Variable b : browser.
(** [soup.select_one(...)] followed by [get_text()], per field. *)
Variable soup_text : field -> string -> option string.

(** One awaited browser call. *)
Definition await (e : event) (w : world) : world :=
  {| fs := fs w; clock := (clock w + duration b (ticks w) e)%Q;
     ticks := S (ticks w); trace := (trace w ++ [e])%list |}.

(** [leftbar] is [None] when the pane is not found, and [leftbar.hover()]
    raises. *)
Definition hover_search_results (w : world) : result unit * world :=
  let leftbar := pane_found b (ticks w) in
  let w := await (QuerySelector LeftBar) w in
  if leftbar then
    let w := await Hover w in
    (Ok (), await (Sleep (1 # 2)) w)
  else
    (Raise (AttributeError "'NoneType' object has no attribute 'hover'"), w).

Definition scroll_and_sleep (delta_y : Z) (w : world) : world :=
  let w := await (Wheel delta_y) w in
  await (Sleep SLEEP_PER_SCROLL_S) w.

Definition end_locator_is_present (w : world) : bool * world :=
  (end_marker b (ticks w), await (QuerySelector EndMarker) w).

Definition scrape_urls (w : world) : list (option string) * world :=
  let urls := hrefs b (ticks w) in
  let w := await (QuerySelectorAll ResultLinks) w in
  (urls, foldl (fun w _ => await GetAttribute w) w urls).

(** The [while True] loop; [fuel] bounds the number of iterations.  The
    result is the last [finish_scroll_time] and the world at the [break]. *)
Fixpoint scroll_loop (fuel : nat) (start_scroll_time : Q) (w : world)
  : option (Q * world) :=
  match fuel with
  | 0 => None
  | S fuel' =>
      let w := scroll_and_sleep 1000 w in
      let finish_scroll_time := clock w in
      let '(present, w) := end_locator_is_present w in
      if present ||
         Qgt_bool (finish_scroll_time - start_scroll_time) SCROLL_TIME_DURATION_S
      then Some (finish_scroll_time, w)
      else scroll_loop fuel' start_scroll_time w
  end.

Definition _get_search_results_urls (fuel : nat) (w : world)
  : option (result (list (option string)) * world) :=
  match hover_search_results w with
  | (Raise e, w) => Some (Raise e, w)
  | (Ok _, w) =>
      let start_scroll_time := clock w in
      match scroll_loop fuel start_scroll_time w with
      | Some (_, w) =>
          let '(urls, w) := scrape_urls w in
          Some (Ok urls, w)
      | None => None
      end
  end.

Definition search (fuel : nat) (self : engine) (w : world)
  : option (result unit * world) :=
  if negb (page self) then
    Some (Raise (ValueError "Initialize the browser before searching by await *.init_browser()"), w)
  else
    let w := await (Goto (url self)) w in
    match _get_search_results_urls fuel w with
    | Some (Ok _, w) => Some (Ok (), w)
    | Some (Raise e, w) => Some (Raise e, w)
    | None => None
    end.

Definition text_or_no_info (f : field) (html : string) : string :=
  default NO_INFO (soup_text f html).

Definition _parse_data_with_soup (self : engine) (html place_url : string) : row :=
  let '(place_lat, place_lang) := extract_lat_lang_from_url place_url in
  [text_or_no_info Title html; text_or_no_info Address html;
   text_or_no_info PhoneNumber html; text_or_no_info WebsiteURL html;
   place_url; place_lat; place_lang].

(** The [for url in urls] loop of [run], inside the [with] block.  With a
    url that is [None], [_parse_data_with_soup] raises [TypeError] where it
    hands the url to [extract_lat_lang_from_url], whose first statement
    tests ['!3d' in url]. *)
Fixpoint run_links (main : string * string) (urls : list (option string))
         (self : engine) (w : world) : result unit * engine * world :=
  match urls with
  | [] => (Ok (), self, w)
  | None :: _ =>
      let w := await GotoNone w in
      let w := await Content w in
      (Raise (TypeError "argument of type 'NoneType' is not iterable"), self, w)
  | Some place_url :: urls' =>
      let w := await (Goto place_url) w in
      let html := content b (ticks w) in
      let w := await Content w in
      let data := _parse_data_with_soup self html place_url in
      let place := extract_lat_lang_from_url place_url in
      match coords_match main place with
      | Raise e => (Raise e, self, w)
      | Ok true =>
          let self := append_entry data self in
          let w := writerow FILENAME data w in
          run_links main urls' self w
      | Ok false => run_links main urls' self w
      end
  end.

Definition run (fuel : nat) (self : engine) (w : world)
  : option (result unit * engine * world) :=
  if negb (page self) then
    Some (Raise (ValueError "Initialize the browser before running by await *.init_browser()"), self, w)
  else
    match search fuel self w with
    | None => None
    | Some (Raise e, w) => Some (Raise e, self, w)
    | Some (Ok _, w) =>
        match _get_search_results_urls fuel w with
        | None => None
        | Some (Raise e, w) => Some (Raise e, self, w)
        | Some (Ok urls, w) =>
            let w := open FILENAME Append w in
            let w := writerow FILENAME FIELD_NAMES w in
            let main := extract_lat_lang_from_url (url self) in
            Some (run_links main urls self w)
        end
    end.

(** [filename or self.FILENAME] *)
Definition filename_or_default (filename : option string) : string :=
  match filename with
  | Some (String c s) => String c s
  | _ => FILENAME
  end.

Definition save_to_csv (filename : option string) (self : engine) (w : world)
  : result unit * world :=
  let filename := filename_or_default filename in
  match _entries self with
  | [] => (Raise (NotImplementedError "Entries are empty, call .run() method first to save them"), w)
  | _ =>
      let w := open filename Truncate w in
      let w := writerow filename FIELD_NAMES w in
      (Ok (), writerows filename (_entries self) w)
  end.

End Engine.

(** * Properties *)

(** ** The matcher *)

Section ReFacts.

Import Re.

Lemma match_here_lit c re s gs :
  match_here (Lit c :: re) s = Some gs ->
  exists s', s = String c s' /\ match_here re s' = Some gs.
Proof.
  simpl. destruct s as [|c' s']; [discriminate|].
  destruct (Ascii.eqb c c') eqn:E; [|discriminate].
  apply Ascii.eqb_eq in E. subst c'. intros H. exists s'. split; [reflexivity|exact H].
Qed.

Lemma match_here_cap cls re s gs :
  match_here (Cap cls :: re) s = Some gs ->
  exists k gs', gs = Str.take k s :: gs' /\
                match_here re (Str.drop k s) = Some gs' /\
                (1 <= k <= Str.span cls s)%nat.
Proof.
  simpl. generalize (Str.span cls s) as n.
  induction n as [|n IH]; [discriminate|].
  destruct (match_here re (Str.drop (S n) s)) as [gs'|] eqn:E.
  - intros [= <-]. exists (S n), gs'. repeat split; [exact E|lia|lia].
  - intros H. destruct (IH H) as (k & gs' & -> & Hm & Hk).
    exists k, gs'. repeat split; [exact Hm|lia|lia].
Qed.

(** A match binds every group of the pattern. *)
Lemma match_here_groups re : forall s gs,
  match_here re s = Some gs -> length gs = groups re.
Proof.
  induction re as [|[c|cls] re IH]; intros s gs H.
  - injection H as <-. reflexivity.
  - apply match_here_lit in H as (s' & _ & H). simpl. eauto.
  - apply match_here_cap in H as (k & gs' & -> & H & _). simpl. f_equal. eauto.
Qed.

Lemma search_found re : forall s gs,
  search re s = Some gs -> exists n, match_here re (Str.drop n s) = Some gs.
Proof.
  induction s as [|c s IH]; intros gs; simpl.
  - destruct (match_here re "") eqn:E; [|discriminate].
    intros [= <-]. exists 0%nat. exact E.
  - destruct (match_here re (String c s)) eqn:E.
    + intros [= <-]. exists 0%nat. exact E.
    + intros H. destruct (IH _ H) as [n Hn]. exists (S n). exact Hn.
Qed.

Lemma search_groups re s gs : search re s = Some gs -> length gs = groups re.
Proof. intros H. apply search_found in H as [n H]. eapply match_here_groups, H. Qed.

(** The place pattern only matches where both of its markers stand. *)
Lemma match_place_markers s gs :
  match_here place_re s = Some gs ->
  Str.contains "!3d" s = true /\ Str.contains "!4d" s = true.
Proof.
  intros H. unfold place_re in H.
  apply match_here_lit in H as (s1 & -> & H).
  apply match_here_lit in H as (s2 & -> & H).
  apply match_here_lit in H as (s3 & -> & H).
  apply match_here_cap in H as (k & gs' & _ & H & _).
  apply match_here_lit in H as (t1 & E1 & H).
  apply match_here_lit in H as (t2 & -> & H).
  apply match_here_lit in H as (t3 & -> & H).
  split.
  - apply Str.contains_prefix. reflexivity.
  - do 3 apply Str.contains_cons. apply (Str.contains_drop _ k). rewrite E1.
    apply Str.contains_prefix. reflexivity.
Qed.

Lemma search_place_markers s gs :
  search place_re s = Some gs ->
  Str.contains "!3d" s = true /\ Str.contains "!4d" s = true.
Proof.
  intros H. apply search_found in H as [n H].
  apply match_place_markers in H as [H3 H4].
  split; eapply Str.contains_drop; eassumption.
Qed.

End ReFacts.

(** ** The coordinate parser *)

(** The parser as the specification words it: the place pattern first, and
    the map-centre pattern whenever the place pattern gives nothing. *)
Definition extract_place_then_center (url : string) : string * string :=
  match Re.search place_re url with
  | Some gs => groups_or_no_info (Some gs)
  | None => groups_or_no_info (Re.search center_re url)
  end.

(** A URL that holds both markers, without numbers behind them, and a map
    centre. *)
Definition markers_without_numbers : string :=
  "https://www.google.com/maps/place/Gym/@51.1282,71.4306,17z/data=!3dabc!4dxyz".

(** C4, as stated, fails: on a URL that holds both markers but that the
    place pattern does not match, the map-centre pattern would match and is
    not tried; the sentinel pair is returned. *)
Lemma extract_no_fallback_with_markers :
  Re.search place_re markers_without_numbers = None /\
  Re.search center_re markers_without_numbers = Some ["51.1282"; "71.4306"] /\
  extract_place_then_center markers_without_numbers = ("51.1282", "71.4306") /\
  extract_lat_lang_from_url markers_without_numbers = (NO_INFO, NO_INFO).
Proof. vm_compute. repeat split. Qed.

(** C4, amended: the captures of the place pattern are returned whenever it
    matches; otherwise the map-centre pattern is tried only when the URL
    lacks one of the markers [!3d], [!4d], and a URL with both markers gets
    the sentinel pair; whenever neither pattern matches, the result is the
    sentinel pair. *)
Theorem extract_lat_lang_from_url_cases (url : string) :
  extract_lat_lang_from_url url =
    match Re.search place_re url with
    | Some [lat; lang] => (lat, lang)
    | _ =>
        if Str.contains "!3d" url && Str.contains "!4d" url
        then (NO_INFO, NO_INFO)
        else groups_or_no_info (Re.search center_re url)
    end
  /\ (Re.search place_re url = None -> Re.search center_re url = None ->
      extract_lat_lang_from_url url = (NO_INFO, NO_INFO)).
Proof.
  unfold extract_lat_lang_from_url. split.
  - destruct (Re.search place_re url) as [gs|] eqn:E.
    + pose proof (search_groups _ _ _ E) as Hlen.
      destruct (search_place_markers _ _ E) as [-> ->]. simpl andb. cbv iota.
      destruct gs as [|lat [|lang [|? ?]]]; try discriminate Hlen. reflexivity.
    + destruct (Str.contains "!3d" url && Str.contains "!4d" url); reflexivity.
  - intros -> ->. destruct (Str.contains "!3d" url && Str.contains "!4d" url); reflexivity.
Qed.

(** The sentinel is no number: [float] raises on it. *)
Lemma float_no_info : exists msg, float NO_INFO = Raise (ValueError msg).
Proof. eexists. reflexivity. Qed.

(** ** The coordinate filter *)

Lemma float_ok s x : PyFloat.of_string s = Some x -> float s = Ok x.
Proof. unfold float. intros ->. reflexivity. Qed.

Lemma float_raise s : PyFloat.of_string s = None -> exists msg, float s = Raise (ValueError msg).
Proof. unfold float. intros ->. eexists. reflexivity. Qed.

Lemma float_inv s : (exists x, PyFloat.of_string s = Some x /\ float s = Ok x) \/
                    (PyFloat.of_string s = None /\ exists msg, float s = Raise (ValueError msg)).
Proof.
  unfold float. destruct (PyFloat.of_string s) as [x|]; [left|right]; eauto.
Qed.

Section Rounding.

Local Open Scope Z_scope.

Lemma half_even_div_spec a b :
  0 <= a -> 0 < b ->
  0 <= PyFloat.half_even_div a b /\
  2 * Z.abs (a - PyFloat.half_even_div a b * b) <= b /\
  (2 * Z.abs (a - PyFloat.half_even_div a b * b) = b ->
   Z.even (PyFloat.half_even_div a b) = true).
Proof.
  intros Ha Hb. unfold PyFloat.half_even_div. cbv zeta.
  pose proof (Z.div_mod a b ltac:(lia)) as Hdm.
  pose proof (Z.mod_pos_bound a b Hb) as Hmod.
  pose proof (Z.div_pos a b Ha Hb) as Hq.
  set (q := a / b) in *. set (r := a mod b) in *.
  destruct (Z.compare_spec (2 * r) b) as [He|Hl|Hg].
  - destruct (Z.even q) eqn:Ev.
    + repeat split; try lia. intros _. exact Ev.
    + repeat split; try lia.
      intros _. rewrite Z.even_add, Ev. reflexivity.
  - repeat split; try lia.
  - repeat split; try lia.
Qed.

Lemma nearest_even_unique n d t1 t2 :
  0 < d ->
  2 * Z.abs (n - t1 * d) <= d -> (2 * Z.abs (n - t1 * d) = d -> Z.even t1 = true) ->
  2 * Z.abs (n - t2 * d) <= d -> (2 * Z.abs (n - t2 * d) = d -> Z.even t2 = true) ->
  t1 = t2.
Proof.
  intros Hd H1 E1 H2 E2.
  assert (Z.abs (t1 - t2) <= 1) as Hclose by nia.
  destruct (Z.eq_dec t1 t2) as [|Hne]; [assumption|exfalso].
  assert (t1 = t2 + 1 \/ t2 = t1 + 1) as [->| ->] by lia.
  - assert (Z.even (t2 + 1) = true) as Ha by (apply E1; nia).
    assert (Z.even t2 = true) as Hb by (apply E2; nia).
    rewrite Z.even_add, Hb in Ha. discriminate.
  - assert (Z.even (t1 + 1) = true) as Ha by (apply E2; nia).
    assert (Z.even t1 = true) as Hb by (apply E1; nia).
    rewrite Z.even_add, Hb in Ha. discriminate.
Qed.

Lemma log2_ratio_lt p d k :
  0 < p -> 0 < d -> 0 <= k -> p < 2 ^ k * d -> PyFloat.log2_ratio p d < k.
Proof.
  intros Hp Hd Hk Hlt. unfold PyFloat.log2_ratio. cbv zeta.
  destruct (Z.log2_spec p Hp) as [Hp1 Hp2].
  destruct (Z.log2_spec d Hd) as [Hd1 Hd2].
  pose proof (Z.log2_nonneg p) as Hlp. pose proof (Z.log2_nonneg d) as Hld.
  set (lp := Z.log2 p) in *. set (ld := Z.log2 d) in *.
  destruct (0 <=? lp - ld) eqn:Hl.
  - apply Z.leb_le in Hl.
    destruct (2 ^ (lp - ld) * d <=? p) eqn:Hr.
    + apply Z.leb_le in Hr.
      apply (Z.pow_lt_mono_r_iff 2); [lia|lia|]. nia.
    + destruct (Z.eq_dec lp ld) as [->|Hne]; [lia|].
      assert (2 ^ (lp - ld - 1) * d < p) as Hlow.
      { assert (2 ^ lp = 2 ^ (lp - ld - 1) * 2 ^ (Z.succ ld)) as Hpow.
        { rewrite <- Z.pow_add_r by lia. f_equal. lia. }
        assert (0 < 2 ^ (lp - ld - 1)) by (apply Z.pow_pos_nonneg; lia).
        nia. }
      assert (0 < 2 ^ (lp - ld - 1)) by (apply Z.pow_pos_nonneg; lia).
      assert (2 ^ (lp - ld - 1) < 2 ^ k) by nia.
      apply (Z.pow_lt_mono_r_iff 2) in H0; lia.
  - apply Z.leb_gt in Hl. destruct (d <=? p * 2 ^ (- (lp - ld))); lia.
Qed.

Lemma Qabs_diff_le (a : Z) (b : positive) (n : Z) (d e : positive) :
  Z.abs (a * Zpos d - n * Zpos b) * Zpos e <= Zpos b * Zpos d ->
  (Qabs ((a # b) - (n # d)) <= 1 # e)%Q.
Proof.
  intros H. apply Qabs_Qle_condition.
  unfold Qle, Qminus, Qplus, Qopp. cbn [Qnum Qden].
  rewrite !Pos2Z.inj_mul. split; nia.
Qed.

Lemma rnd64_near (q : Q) :
  Z.abs (Qnum q) < 2 ^ 10 * Zpos (Qden q) ->
  exists f, PyFloat.rnd64 q = PyFloat.Fin f /\ (Qabs (f - q) <= 1 # 2 ^ 44)%Q.
Proof.
  destruct q as [n d]. cbn [Qnum Qden]. intros Hlt.
  unfold PyFloat.rnd64. cbn [Qnum Qden]. cbv zeta.
  destruct (Z.abs n =? 0) eqn:Hz.
  - apply Z.eqb_eq in Hz. exists 0%Q. split; [reflexivity|].
    assert (n = 0) as -> by lia.
    apply Qabs_Qle_condition. unfold Qle, Qminus, Qplus, Qopp. cbn. lia.
  - apply Z.eqb_neq in Hz.
    pose proof (log2_ratio_lt (Z.abs n) (Zpos d) 10 ltac:(lia) ltac:(lia) ltac:(lia) Hlt) as Hlr.
    set (ex := Z.max (PyFloat.log2_ratio (Z.abs n) (Z.pos d) - 52) (-1074)) in *.
    assert (-1074 <= ex <= -43) as Hex by (unfold ex; lia).
    destruct (0 <=? ex) eqn:Hs; [apply Z.leb_le in Hs; lia|].
    eexists. split; [reflexivity|].
    rewrite Qred_correct.
    assert (0 < 2 ^ (- ex)) as Hpow by (apply Z.pow_pos_nonneg; lia).
    assert (2 ^ 43 <= 2 ^ (- ex)) as Hbig by (apply Z.pow_le_mono_r; lia).
    destruct (half_even_div_spec (Z.abs n * 2 ^ (- ex)) (Zpos d) ltac:(nia) ltac:(lia))
      as (Hm0 & Hm1 & _).
    set (m := PyFloat.half_even_div (Z.abs n * 2 ^ (- ex)) (Z.pos d)) in *.
    apply Qabs_diff_le. rewrite Z2Pos.id by exact Hpow.
    change (Z.pos (2 ^ 44)) with (2 * 2 ^ 43).
    destruct (n <? 0) eqn:Hn; [apply Z.ltb_lt in Hn|apply Z.ltb_ge in Hn]; nia.
Qed.

Lemma round1_fin q : PyFloat.round1 (PyFloat.Fin q) = PyFloat.rnd64 (tenths q # 10).
Proof. reflexivity. Qed.

Lemma rounds_to_tenth_Z n d t :
  rounds_to_tenth (n # d) t <->
  2 * Z.abs (10 * n - t * Zpos d) <= Zpos d /\
  (2 * Z.abs (10 * n - t * Zpos d) = Zpos d -> Z.even t = true).
Proof.
  unfold rounds_to_tenth.
  assert (Qabs (10 * (n # d) - inject_Z t) = (Z.abs (10 * n - t * Zpos d) # d)) as ->.
  { unfold Qabs, Qminus, Qplus, Qmult, Qopp, inject_Z. cbn [Qnum Qden].
    rewrite Pos.mul_1_l, Pos.mul_1_r. f_equal. f_equal. lia. }
  unfold Qle, Qeq. cbn [Qnum Qden].
  split; intros [H1 H2]; split; try lia; intros H; apply H2; lia.
Qed.

Lemma tenths_rounds q : rounds_to_tenth q (tenths q).
Proof.
  destruct q as [n d]. apply rounds_to_tenth_Z. unfold tenths. cbn [Qnum Qden].
  destruct (half_even_div_spec (Z.abs (n * 10)) (Zpos d) ltac:(lia) ltac:(lia))
    as (H0 & H1 & H2).
  set (m := PyFloat.half_even_div (Z.abs (n * 10)) (Z.pos d)) in *.
  destruct (n <? 0) eqn:Hn; [apply Z.ltb_lt in Hn|apply Z.ltb_ge in Hn].
  - replace (Z.abs (10 * n - - m * Z.pos d)) with (Z.abs (Z.abs (n * 10) - m * Z.pos d))
      by lia.
    rewrite Z.even_opp. auto.
  - replace (Z.abs (10 * n - m * Z.pos d)) with (Z.abs (Z.abs (n * 10) - m * Z.pos d))
      by lia.
    auto.
Qed.

Lemma rounds_to_tenth_unique q t1 t2 :
  rounds_to_tenth q t1 -> rounds_to_tenth q t2 -> t1 = t2.
Proof.
  destruct q as [n d]. rewrite !rounds_to_tenth_Z. intros [H1 E1] [H2 E2].
  apply (nearest_even_unique (10 * n) (Zpos d)); auto; lia.
Qed.

Lemma rounds_to_tenth_bound q t :
  (Qabs q <= 1000)%Q -> rounds_to_tenth q t -> Z.abs t <= 10000.
Proof.
  destruct q as [n d]. rewrite rounds_to_tenth_Z. intros Hq [H _].
  unfold Qle, Qabs in Hq. cbn [Qnum Qden] in Hq. nia.
Qed.

(** [round(x, 1)], for [x] of magnitude at most 1000: the double of the
    tenth nearest to [x], ties to even, which is that tenth up to [2^-44]. *)
Lemma round1_near q :
  (Qabs q <= 1000)%Q ->
  exists t f, rounds_to_tenth q t /\ PyFloat.round1 (PyFloat.Fin q) = PyFloat.Fin f /\
              (Qabs (f - (t # 10)) <= 1 # 2 ^ 44)%Q.
Proof.
  intros Hq. pose proof (tenths_rounds q) as Ht.
  pose proof (rounds_to_tenth_bound q _ Hq Ht) as Hb.
  destruct (rnd64_near (tenths q # 10)) as (f & Hf & Hnear).
  { cbn [Qnum Qden]. lia. }
  exists (tenths q), f. rewrite round1_fin. auto.
Qed.

Lemma pyfloat_eqb_refl x : PyFloat.eqb x x = true.
Proof.
  apply PyFloat.eqb_same_value. destruct x; cbn; reflexivity.
Qed.

(** Two doubles of magnitude at most 1000 are equal after [round(_, 1)]
    exactly when they round to the same tenth. *)
Lemma round1_eqb_iff q1 q2 :
  (Qabs q1 <= 1000)%Q -> (Qabs q2 <= 1000)%Q ->
  PyFloat.eqb (PyFloat.round1 (PyFloat.Fin q1)) (PyFloat.round1 (PyFloat.Fin q2)) = true <->
  exists t, rounds_to_tenth q1 t /\ rounds_to_tenth q2 t.
Proof.
  intros Hq1 Hq2. split.
  - intros Heq.
    destruct (round1_near q1 Hq1) as (t1 & f1 & Ht1 & Hf1 & Hn1).
    destruct (round1_near q2 Hq2) as (t2 & f2 & Ht2 & Hf2 & Hn2).
    rewrite Hf1, Hf2 in Heq. cbn [PyFloat.eqb] in Heq. apply Qeq_bool_iff in Heq.
    assert (t1 = t2) as <-; [|eauto].
    apply Qabs_Qle_condition in Hn1, Hn2.
    change (2 ^ 44)%positive with 17592186044416%positive in Hn1, Hn2.
    assert (Qabs ((t1 # 10) - (t2 # 10)) <= 1 # 8796093022208)%Q as Hclose.
    { apply Qabs_Qle_condition.
      set (x1 := (t1 # 10)%Q) in *. set (x2 := (t2 # 10)%Q) in *. split; lra. }
    apply Qabs_Qle_condition in Hclose.
    unfold Qle, Qminus, Qplus, Qopp in Hclose. cbn [Qnum Qden] in Hclose. lia.
  - intros (t & Ht1 & Ht2).
    rewrite (rounds_to_tenth_unique _ _ _ Ht1 (tenths_rounds q1)) in Ht2.
    rewrite !round1_fin, (rounds_to_tenth_unique _ _ _ (tenths_rounds q2) Ht2).
    apply pyfloat_eqb_refl.
Qed.

End Rounding.

(** [float] gives the double nearest to the number the string spells: for
    a number of magnitude below 1024 it is that number up to [2^-44]. *)
Lemma float_near_decimal s x :
  float s = Ok x ->
  exists r, decimal_value s = Some r /\ x = PyFloat.rnd64 r /\
            ((Z.abs (Qnum r) < 2 ^ 10 * Zpos (Qden r))%Z ->
             exists f, x = PyFloat.Fin f /\ (Qabs (f - r) <= 1 # 2 ^ 44)%Q).
Proof.
  unfold float, PyFloat.of_string, decimal_value.
  destruct s as [|c s']; [discriminate|].
  set (sb := match String c s' with
             | String "-"%char s'' => (true, s'')
             | _ => (false, String c s')
             end).
  destruct sb as [negative body].
  destruct (PyFloat.parse_decimal body false false 0 0) as [[n k]|]; [|discriminate].
  intros [= <-]. eexists. split; [reflexivity|]. split; [reflexivity|].
  intros Hr. destruct (rnd64_near _ Hr) as (f & Hf & Hnear). eauto.
Qed.

(** C3, as stated, fails: the numbers 0.15 and 0.2 rounded to one decimal
    digit are both 0.2, and the longitudes are the same, yet the verdict of
    [run] is false: [float] takes 0.15 to the double next below it, which
    [round] takes to 0.1. *)
Lemma nearest_tenths_equal_verdict_false :
  decimal_value "0.15" = Some (15 # 100)%Q /\ rounds_to_tenth (15 # 100) 2 /\
  decimal_value "0.2" = Some (2 # 10)%Q /\ rounds_to_tenth (2 # 10) 2 /\
  decimal_value "0" = Some (0 # 1)%Q /\ rounds_to_tenth (0 # 1) 0 /\
  coords_match ("0.15", "0") ("0.2", "0") = Ok false.
Proof.
  repeat split; try (vm_compute; reflexivity); try (vm_compute; discriminate).
Qed.

(** The same away from a tie: a number above 0.15, whose nearest tenth is
    0.2 whatever is done with ties, is taken by [float] to the same double
    as 0.15. *)
Example above_the_tie :
  decimal_value "0.1500000000000000001"
    = Some (1500000000000000001 # 10000000000000000000)%Q /\
  (Qabs (10 * (1500000000000000001 # 10000000000000000000) - 2) < 1 # 2)%Q /\
  PyFloat.of_string "0.1500000000000000001" = PyFloat.of_string "0.15" /\
  coords_match ("0.1500000000000000001", "0") ("0.2", "0") = Ok false.
Proof. repeat split; vm_compute; reflexivity. Qed.

(** C3, amended: when [float] takes the four strings to finite doubles of
    magnitude at most 1000, the verdict of [run] is true exactly when the
    two latitudes round to the same decimal with one digit after the point
    and the two longitudes do; what is rounded is the exact value of each
    double, not the number the string spells, to the nearest such decimal
    and on a tie to the one with the even digit. *)
Theorem coords_match_rounded (main place : string * string) (a b c d : Q) :
  float main.1 = Ok (PyFloat.Fin a) -> float main.2 = Ok (PyFloat.Fin b) ->
  float place.1 = Ok (PyFloat.Fin c) -> float place.2 = Ok (PyFloat.Fin d) ->
  (Qabs a <= 1000)%Q -> (Qabs b <= 1000)%Q -> (Qabs c <= 1000)%Q -> (Qabs d <= 1000)%Q ->
  exists verdict, coords_match main place = Ok verdict /\
    (verdict = true <->
     exists lat lang : Z,
       rounds_to_tenth a lat /\ rounds_to_tenth c lat /\
       rounds_to_tenth b lang /\ rounds_to_tenth d lang).
Proof.
  intros H1 H2 H3 H4 Ha Hb Hc Hd. unfold coords_match.
  rewrite H1, H2, H3, H4. eexists. split; [reflexivity|].
  rewrite andb_true_iff, !round1_eqb_iff by assumption.
  split.
  - intros [(lat & ? & ?) (lang & ? & ?)]. exists lat, lang. auto.
  - intros (lat & lang & ? & ? & ? & ?). split; eauto.
Qed.

Definition astana_lat : Q := Eval vm_compute in fin_value (PyFloat.of_string "51.1801").
Definition astana_lang : Q := Eval vm_compute in fin_value (PyFloat.of_string "71.4460").
Definition gym_lat : Q := Eval vm_compute in fin_value (PyFloat.of_string "51.18").
Definition gym_lang : Q := Eval vm_compute in fin_value (PyFloat.of_string "71.45").

Lemma coords_match_rounded_witness :
  exists verdict,
    coords_match ("51.1801", "71.4460") ("51.18", "71.45") = Ok verdict /\
    (verdict = true <->
     exists lat lang : Z,
       rounds_to_tenth astana_lat lat /\ rounds_to_tenth gym_lat lat /\
       rounds_to_tenth astana_lang lang /\ rounds_to_tenth gym_lang lang).
Proof.
  apply (coords_match_rounded ("51.1801", "71.4460") ("51.18", "71.45")
           astana_lat astana_lang gym_lat gym_lang);
    try (vm_compute; reflexivity); vm_compute; discriminate.
Defined.

(** The doubles of 71.4460 and 71.45 round to the tenths 71.4 and 71.5. *)
Example astana_gym_tenths :
  rounds_to_tenth astana_lang 714 /\ rounds_to_tenth gym_lang 715.
Proof. repeat split; vm_compute; discriminate. Qed.

(** The sentinel on either side makes the comparison raise. *)
Lemma coords_match_no_info (main place : string * string) :
  main.1 = NO_INFO \/ main.2 = NO_INFO \/ place.1 = NO_INFO \/ place.2 = NO_INFO ->
  exists msg, coords_match main place = Raise (ValueError msg).
Proof.
  intros H. unfold coords_match.
  destruct (float_inv main.1) as [(a & Ha & ->)|(_ & msg & ->)]; [|eauto].
  destruct (float_inv main.2) as [(c & Hc & ->)|(_ & msg & ->)]; [|eauto].
  destruct (float_inv place.1) as [(d & Hd & ->)|(_ & msg & ->)]; [|eauto].
  destruct (float_inv place.2) as [(e & He & ->)|(_ & msg & ->)]; [|eauto].
  exfalso. destruct H as [H|[H|[H|H]]]; rewrite H in *; discriminate.
Qed.

(** C2 on the code: with the sentinel on the place side or on the reference
    side the comparison does not answer false, it raises [ValueError]. *)
Theorem coords_match_sentinel_raises :
  coords_match ("51.1801", "71.4460") (NO_INFO, NO_INFO)
    = Raise (ValueError "could not convert string to float: 'No Info'") /\
  coords_match (NO_INFO, NO_INFO) ("51.18", "71.45")
    = Raise (ValueError "could not convert string to float: 'No Info'").
Proof. vm_compute. split; reflexivity. Qed.

(** ** The scroll loop *)

Local Open Scope Q_scope.

Lemma Qgt_bool_iff x y : Qgt_bool x y = true <-> y < x.
Proof.
  unfold Qgt_bool. rewrite negb_true_iff, <- not_true_iff_false, Qle_bool_iff.
  split; [apply Qnot_le_lt|apply Qlt_not_le].
Qed.

(** The pauses last at least as long as asked and no call of the loop takes
    negative time. *)
Definition paced (b : browser) : Prop :=
  (forall n dy, 0 <= duration b n (Wheel dy)) /\
  (forall n, SLEEP_PER_SCROLL_S <= duration b n (Sleep SLEEP_PER_SCROLL_S)) /\
  (forall n, 0 <= duration b n (QuerySelector EndMarker)).

(** Every scroll cycle, a scroll and its pause, takes at most [c]. *)
Definition cycle_within (b : browser) (c : Q) : Prop :=
  forall n dy, duration b n (Wheel dy) + duration b (S n) (Sleep SLEEP_PER_SCROLL_S) <= c.

(** Every look for the end marker takes at most [q]. *)
Definition query_within (b : browser) (q : Q) : Prop :=
  forall n, duration b n (QuerySelector EndMarker) <= q.

(** Unfold the clock and the call counter of the worlds in sight. *)
Ltac world_clock := cbn [scroll_and_sleep await clock ticks] in *.

Section ScrollLoop.

Variable b : browser.

Lemma scroll_loop_S fuel start w :
  scroll_loop b (S fuel) start w =
    let w1 := scroll_and_sleep b 1000 w in
    let w2 := await b (QuerySelector EndMarker) w1 in
    if end_marker b (ticks w1) || Qgt_bool (clock w1 - start) SCROLL_TIME_DURATION_S
    then Some (clock w1, w2)
    else scroll_loop b fuel start w2.
Proof. reflexivity. Qed.

Lemma clock_cycle dy w :
  clock (scroll_and_sleep b dy w) =
    clock w + duration b (ticks w) (Wheel dy)
    + duration b (S (ticks w)) (Sleep SLEEP_PER_SCROLL_S).
Proof. reflexivity. Qed.

Lemma clock_await e w : clock (await b e w) = clock w + duration b (ticks w) e.
Proof. reflexivity. Qed.

(** More fuel does not change a result. *)
Lemma scroll_loop_more fuel : forall start w r k,
  scroll_loop b fuel start w = Some r -> scroll_loop b (fuel + k) start w = Some r.
Proof.
  induction fuel as [|fuel IH]; intros start w r k; [discriminate|].
  change (S fuel + k)%nat with (S (fuel + k)). rewrite !scroll_loop_S. cbv zeta.
  destruct (_ || _); [exact id|]. apply IH.
Qed.

Hypothesis Hpaced : paced b.

(** After [n + 1] cycles the ceiling is passed, whatever the marker does. *)
Lemma scroll_loop_enough n : forall start w,
  SCROLL_TIME_DURATION_S - SLEEP_PER_SCROLL_S * (inject_Z (Z.of_nat n) + 1)
    < clock w - start ->
  exists r, scroll_loop b (S n) start w = Some r.
Proof.
  destruct Hpaced as (Hwheel & Hsleep & Hquery).
  induction n as [|n IH]; intros start w Hw; rewrite scroll_loop_S; cbv zeta.
  - destruct (end_marker b _); [eauto|]. simpl orb.
    destruct (Qgt_bool _ _) eqn:E; [eauto|].
    exfalso. apply not_true_iff_false in E. apply E, Qgt_bool_iff.
    pose proof (Hwheel (ticks w) 1000%Z). pose proof (Hsleep (S (ticks w))).
    change (inject_Z (Z.of_nat 0)) with 0 in Hw. world_clock. lra.
  - destruct (_ || _); [eauto|]. apply IH.
    pose proof (Hwheel (ticks w) 1000%Z). pose proof (Hsleep (S (ticks w))).
    pose proof (Hquery (S (S (ticks w)))). world_clock.
    assert (inject_Z (Z.of_nat (S n)) == inject_Z (Z.of_nat n) + 1) as Hn.
    { rewrite Nat2Z.inj_succ. unfold Z.succ. rewrite inject_Z_plus. reflexivity. }
    unfold SLEEP_PER_SCROLL_S in *. lra.
Qed.

Lemma scroll_loop_returns fuel w :
  (101 <= fuel)%nat -> exists r, scroll_loop b fuel (clock w) w = Some r.
Proof.
  intros Hfuel. destruct (scroll_loop_enough 100 (clock w) w) as [r Hr].
  { unfold SCROLL_TIME_DURATION_S, SLEEP_PER_SCROLL_S.
    change (inject_Z (Z.of_nat 100)) with 100. lra. }
  exists r. replace fuel with (101 + (fuel - 101))%nat by lia.
  apply scroll_loop_more, Hr.
Qed.

Variables c q : Q.
Hypothesis Hcycle : cycle_within b c.
Hypothesis Hquery : query_within b q.

(** The last time sample is at most one look for the marker and one cycle
    past the ceiling, and the [break] one more look later. *)
Lemma scroll_loop_bound fuel : forall start w finish w',
  clock w - start <= SCROLL_TIME_DURATION_S + q ->
  scroll_loop b fuel start w = Some (finish, w') ->
  finish - start <= SCROLL_TIME_DURATION_S + q + c /\
  clock w' - start <= SCROLL_TIME_DURATION_S + q + c + q.
Proof.
  induction fuel as [|fuel IH]; intros start w finish w' Hw; [discriminate|].
  rewrite scroll_loop_S. cbv zeta.
  pose proof (Hcycle (ticks w) 1000%Z) as Hc.
  pose proof (Hquery (S (S (ticks w)))) as Hq.
  destruct (end_marker b _); simpl orb.
  - intros [= <- <-]. world_clock. lra.
  - destruct (Qgt_bool _ _) eqn:E.
    + intros [= <- <-]. world_clock. lra.
    + apply IH. apply not_true_iff_false in E. rewrite Qgt_bool_iff in E.
      apply Qnot_lt_le in E. world_clock. lra.
Qed.

End ScrollLoop.

Local Close Scope Q_scope.

Local Open Scope Q_scope.

(** A browser in which the end marker never shows, a pause lasts exactly as
    long as asked, a scroll takes no time and each look for the end marker
    takes ten seconds; no link is listed. *)
Definition slow_marker_browser : browser :=
  {| duration := fun _ e =>
       match e with
       | Sleep d => d
       | QuerySelector EndMarker => 10
       | _ => 0
       end;
     pane_found := fun _ => true;
     end_marker := fun _ => false;
     hrefs := fun _ => [];
     content := fun _ => EmptyString |}.

Definition empty_world : world :=
  {| fs := ∅; clock := 0; ticks := 0%nat; trace := [] |}.

(** C5, as stated, fails: with scroll cycles of exactly two seconds, the
    loop leaves with a last time sample of 206 seconds after its start, more
    than the ceiling plus one cycle. *)
Lemma scroll_loop_overshoot :
  (forall n dy, duration slow_marker_browser n (Wheel dy)
                + duration slow_marker_browser (S n) (Sleep SLEEP_PER_SCROLL_S) == 2) /\
  exists w', scroll_loop slow_marker_browser 101 (clock empty_world) empty_world
             = Some (206, w') /\
             SCROLL_TIME_DURATION_S + 2 < 206 - clock empty_world.
Proof.
  split; [intros; vm_compute; reflexivity|].
  eexists. split; [vm_compute; reflexivity|]. vm_compute. reflexivity.
Qed.

(** C5, amended: when every pause lasts at least [SLEEP_PER_SCROLL_S] and no
    call takes negative time, the loop leaves within 101 iterations, also
    when the end marker never shows; its last time sample is at most the
    ceiling plus the time of one look for the end marker plus one scroll
    cycle after the start, and the [break] comes one more look later. *)
Theorem scroll_loop_terminates (b : browser) (c q : Q) (fuel : nat) (w : world) :
  paced b -> cycle_within b c -> query_within b q -> (101 <= fuel)%nat ->
  exists finish w',
    scroll_loop b fuel (clock w) w = Some (finish, w') /\
    finish - clock w <= SCROLL_TIME_DURATION_S + q + c /\
    clock w' - clock w <= SCROLL_TIME_DURATION_S + q + c + q.
Proof.
  intros Hpaced Hcycle Hquery Hfuel.
  destruct (scroll_loop_returns b Hpaced fuel w Hfuel) as [[finish w'] Hr].
  exists finish, w'. split; [exact Hr|].
  apply (scroll_loop_bound b c q Hcycle Hquery fuel (clock w) w); [|exact Hr].
  destruct Hpaced as (_ & _ & Hq0). pose proof (Hq0 0%nat). pose proof (Hquery 0%nat).
  unfold SCROLL_TIME_DURATION_S. lra.
Qed.

Lemma scroll_loop_terminates_witness :
  exists finish w',
    scroll_loop slow_marker_browser 101 (clock empty_world) empty_world
      = Some (finish, w') /\
    finish - clock empty_world <= SCROLL_TIME_DURATION_S + 10 + 2 /\
    clock w' - clock empty_world <= SCROLL_TIME_DURATION_S + 10 + 2 + 10.
Proof.
  apply (scroll_loop_terminates slow_marker_browser 2 10 101 empty_world).
  - repeat split; intros; cbn; unfold SLEEP_PER_SCROLL_S; lra.
  - intros n dy. cbn. unfold SLEEP_PER_SCROLL_S. lra.
  - intros n. cbn. lra.
  - lia.
Defined.

Local Close Scope Q_scope.

Local Open Scope list_scope.

(** ** What a run does to the world *)

(** The calls of the scroll loop. *)
Definition scroll_event (e : event) : Prop :=
  match e with
  | Wheel _ | Sleep _ | QuerySelector EndMarker => True
  | _ => False
  end.

(** The calls made for one discovered link. *)
Definition visit_event (e : event) : Prop :=
  match e with
  | Goto _ | GotoNone | Content => True
  | _ => False
  end.

(** The calls of one pass of [_get_search_results_urls]: the hover on the
    results pane, the scroll loop, the scrape of the links. *)
Inductive discovery_pass : list event -> Prop :=
| Discovery scrolls n :
    Forall scroll_event scrolls ->
    discovery_pass ([QuerySelector LeftBar; Hover; Sleep (1 # 2)] ++ scrolls ++
                    QuerySelectorAll ResultLinks :: replicate n GetAttribute).

Section Effects.

Variable b : browser.
Variable soup_text : field -> string -> option string.

Lemma scroll_loop_effect fuel : forall start w finish w',
  scroll_loop b fuel start w = Some (finish, w') ->
  fs w' = fs w /\ exists tr, trace w' = trace w ++ tr /\ Forall scroll_event tr.
Proof.
  induction fuel as [|fuel IH]; intros start w finish w'; [discriminate|].
  rewrite scroll_loop_S. cbv zeta.
  destruct (_ || _).
  - intros [= <- <-]. split; [reflexivity|].
    exists [Wheel 1000; Sleep SLEEP_PER_SCROLL_S; QuerySelector EndMarker].
    split; [cbn; rewrite <- !app_assoc; reflexivity|].
    repeat constructor.
  - intros H. apply IH in H as (Hfs & tr & Htr & Hall).
    split; [exact Hfs|].
    exists ([Wheel 1000; Sleep SLEEP_PER_SCROLL_S; QuerySelector EndMarker] ++ tr).
    split; [rewrite Htr; cbn; rewrite <- !app_assoc; reflexivity|].
    repeat constructor. exact Hall.
Qed.

Lemma get_attributes_effect (urls : list (option string)) : forall w,
  let w' := foldl (fun w _ => await b GetAttribute w) w urls in
  fs w' = fs w /\ trace w' = trace w ++ replicate (length urls) GetAttribute.
Proof.
  induction urls as [|u urls IH]; intros w; cbn.
  - split; [reflexivity|]. rewrite app_nil_r. reflexivity.
  - destruct (IH (await b GetAttribute w)) as [Hfs Htr]. cbn in Hfs, Htr.
    split; [exact Hfs|]. rewrite Htr. cbn. rewrite <- app_assoc. reflexivity.
Qed.

Lemma hover_found w :
  pane_found b (ticks w) = true ->
  hover_search_results b w
  = (Ok (), await b (Sleep (1 # 2)) (await b Hover (await b (QuerySelector LeftBar) w))).
Proof. unfold hover_search_results. intros ->. reflexivity. Qed.

Lemma hover_missing w :
  pane_found b (ticks w) = false ->
  hover_search_results b w
  = (Raise (AttributeError "'NoneType' object has no attribute 'hover'"),
     await b (QuerySelector LeftBar) w).
Proof. unfold hover_search_results. intros ->. reflexivity. Qed.

(** A pass that ends normally. *)
Lemma get_search_results_urls_effect fuel w urls w' :
  _get_search_results_urls b fuel w = Some (Ok urls, w') ->
  fs w' = fs w /\ exists tr, trace w' = trace w ++ tr /\ discovery_pass tr.
Proof.
  unfold _get_search_results_urls.
  destruct (pane_found b (ticks w)) eqn:Ep;
    [rewrite (hover_found w Ep)|rewrite (hover_missing w Ep); discriminate].
  destruct (scroll_loop b fuel _ _) as [[finish w1]|] eqn:E; [|discriminate].
  apply scroll_loop_effect in E as (Hfs & tr & Htr & Hall).
  unfold scrape_urls. intros [= <- <-].
  destruct (get_attributes_effect (hrefs b (ticks w1))
              (await b (QuerySelectorAll ResultLinks) w1)) as [Hfs' Htr'].
  cbv zeta in Hfs', Htr'. split.
  - rewrite Hfs'. cbn. rewrite Hfs. reflexivity.
  - eexists. split; [|exact (Discovery tr (length (hrefs b (ticks w1))) Hall)].
    rewrite Htr'. cbn. rewrite Htr. cbn. rewrite <- !app_assoc. reflexivity.
Qed.

(** A pass that raises: the pane was not found, and the query for it is
    the only call made. *)
Lemma get_search_results_urls_raise fuel w e w' :
  _get_search_results_urls b fuel w = Some (Raise e, w') ->
  pane_found b (ticks w) = false /\
  (exists msg, e = AttributeError msg) /\
  w' = await b (QuerySelector LeftBar) w.
Proof.
  unfold _get_search_results_urls.
  destruct (pane_found b (ticks w)) eqn:Ep;
    [rewrite (hover_found w Ep)|rewrite (hover_missing w Ep)].
  - destruct (scroll_loop b fuel _ _) as [[finish w1]|]; [|discriminate].
    destruct (scrape_urls b w1). discriminate.
  - intros [= <- <-]. eauto.
Qed.

Lemma search_effect fuel self w w' :
  search b fuel self w = Some (Ok (), w') ->
  page self = true /\ fs w' = fs w /\
  exists tr, trace w' = trace w ++ Goto (url self) :: tr /\ discovery_pass tr.
Proof.
  unfold search. destruct (page self); cbn; [|discriminate].
  destruct (_get_search_results_urls b fuel _) as [[[urls|e] w1]|] eqn:E; try discriminate.
  intros [= <-].
  apply get_search_results_urls_effect in E as (Hfs & tr & Htr & Hpass).
  repeat split; [exact Hfs|]. exists tr. split; [|exact Hpass].
  rewrite Htr. cbn. rewrite <- app_assoc. reflexivity.
Qed.

(** A search that raises: the page is not bound, or the pane was not
    found. *)
Lemma search_raise fuel self w e w' :
  search b fuel self w = Some (Raise e, w') ->
  (page self = false /\ w' = w /\ exists msg, e = ValueError msg) \/
  (page self = true /\ (exists msg, e = AttributeError msg) /\
   pane_found b (S (ticks w)) = false /\
   w' = await b (QuerySelector LeftBar) (await b (Goto (url self)) w)).
Proof.
  unfold search. destruct (page self); cbn.
  - destruct (_get_search_results_urls b fuel _) as [[[urls|e'] w1]|] eqn:E; try discriminate.
    intros [= <- <-]. right.
    apply get_search_results_urls_raise in E as (Hp & Hmsg & ->). auto.
  - intros [= <- <-]. left. eauto.
Qed.

End Effects.

(** ** The rows of the sink *)

Definition row_url (r : row) : option string := r !! 4%nat.

Definition row_coordinate (r : row) : option (string * string) :=
  match r !! 5%nat, r !! 6%nat with
  | Some lat, Some lang => Some (lat, lang)
  | _, _ => None
  end.

(** Both coordinates are numbers and agree with each other once latitude
    and longitude are each rounded to one decimal digit. *)
Definition rounds_equal (main place : string * string) : Prop :=
  exists main_lat main_lang place_lat place_lang,
    PyFloat.of_string main.1 = Some main_lat /\
    PyFloat.of_string main.2 = Some main_lang /\
    PyFloat.of_string place.1 = Some place_lat /\
    PyFloat.of_string place.2 = Some place_lang /\
    PyFloat.same_value (PyFloat.round1 main_lat) (PyFloat.round1 place_lat) /\
    PyFloat.same_value (PyFloat.round1 main_lang) (PyFloat.round1 place_lang).

Definition row_matches (main : string * string) (r : row) : Prop :=
  exists place, row_coordinate r = Some place /\ rounds_equal main place.

Lemma coords_match_true main place :
  coords_match main place = Ok true -> rounds_equal main place.
Proof.
  unfold coords_match.
  destruct (float_inv main.1) as [(a & Ha & ->)|(_ & msg & ->)]; [|discriminate].
  destruct (float_inv main.2) as [(c & Hc & ->)|(_ & msg & ->)]; [|discriminate].
  destruct (float_inv place.1) as [(d & Hd & ->)|(_ & msg & ->)]; [|discriminate].
  destruct (float_inv place.2) as [(e & He & ->)|(_ & msg & ->)]; [|discriminate].
  cbn. intros [= H]. apply andb_true_iff in H as [Hlat Hlang].
  apply PyFloat.eqb_same_value in Hlat, Hlang.
  exists a, c, d, e. auto 10.
Qed.

Lemma coords_match_raise main place e :
  coords_match main place = Raise e -> exists msg, e = ValueError msg.
Proof.
  unfold coords_match.
  destruct (float_inv main.1) as [(a & Ha & ->)|(_ & msg & ->)]; [|intros [= <-]; eauto].
  destruct (float_inv main.2) as [(c & Hc & ->)|(_ & msg & ->)]; [|intros [= <-]; eauto].
  destruct (float_inv place.1) as [(d & Hd & ->)|(_ & msg & ->)]; [|intros [= <-]; eauto].
  destruct (float_inv place.2) as [(f & Hf & ->)|(_ & msg & ->)]; [|intros [= <-]; eauto].
  discriminate.
Qed.

Lemma writerow_fs name r w old :
  fs w !! name = Some old -> fs (writerow name r w) = <[name := old ++ [r]]> (fs w).
Proof. intros H. unfold writerow, file. rewrite H. reflexivity. Qed.

Lemma writerows_fs name rs : forall w old,
  fs w !! name = Some old -> fs (writerows name rs w) = <[name := old ++ rs]> (fs w).
Proof.
  unfold writerows. induction rs as [|r rs IH]; intros w old H; cbn.
  - rewrite app_nil_r, insert_id; [reflexivity|exact H].
  - rewrite (IH _ (old ++ [r])).
    + rewrite (writerow_fs _ _ _ _ H), insert_insert_eq, <- app_assoc. reflexivity.
    + rewrite (writerow_fs _ _ _ _ H). apply lookup_insert_eq.
Qed.

Lemma writerows_trace name rs : forall w, trace (writerows name rs w) = trace w.
Proof.
  unfold writerows. induction rs as [|r rs IH]; intros w; cbn; [reflexivity|].
  rewrite IH. reflexivity.
Qed.

Section Links.

Variable b : browser.
Variable soup_text : field -> string -> option string.

Lemma parse_data_row self html place_url :
  let data := _parse_data_with_soup soup_text self html place_url in
  row_url data = Some place_url /\
  row_coordinate data = Some (extract_lat_lang_from_url place_url) /\
  length data = 7%nat.
Proof.
  unfold _parse_data_with_soup.
  destruct (extract_lat_lang_from_url place_url) as [lat lang]. cbn. auto.
Qed.

(** What the loop over the links leaves behind: the rows it accepted,
    appended in order both to the entries and to the sink.  It ends
    normally, or with the [ValueError] of a [float], or with the
    [TypeError] of a missing [href]. *)
Lemma run_links_effect main urls : forall self w old r self' w',
  fs w !! FILENAME = Some old ->
  run_links b soup_text main urls self w = (r, self', w') ->
  exists rows visits,
    _entries self' = _entries self ++ rows /\
    url self' = url self /\ page self' = page self /\
    fs w' = <[FILENAME := old ++ rows]> (fs w) /\
    trace w' = trace w ++ visits /\ Forall visit_event visits /\
    sublist (row_url <$> rows) urls /\
    Forall (row_matches main) rows /\
    Forall (fun r => length r = 7%nat) rows /\
    (r = Ok () \/ (exists msg, r = Raise (ValueError msg)) \/
     (exists msg, r = Raise (TypeError msg))).
Proof.
  induction urls as [|[u|] urls IH]; intros self w old r self' w' Hold.
  - intros [= <- <- <-]. exists [], []. cbn.
    rewrite !app_nil_r, insert_id by exact Hold.
    repeat split; auto using sublist_nil.
  - cbn [run_links].
    set (w1 := await b Content (await b (Goto u) w)).
    set (data := _parse_data_with_soup soup_text self _ u).
    destruct (parse_data_row self (content b (ticks (await b (Goto u) w))) u)
      as (Hurl & Hcoord & Hlen). fold data in Hurl, Hcoord, Hlen.
    assert (trace w1 = trace w ++ [Goto u; Content]) as Htr1
      by (cbn; rewrite <- app_assoc; reflexivity).
    destruct (coords_match main (extract_lat_lang_from_url u)) as [[|]|e] eqn:E.
    + intros H.
      apply (IH _ _ (old ++ [data])) in H
        as (rows & visits & He & Hu & Hp & Hfs & Htr & Hv & Hsub & Hm & Hl & Hr).
      2:{ rewrite (writerow_fs _ _ _ old) by exact Hold. apply lookup_insert_eq. }
      exists (data :: rows), ([Goto u; Content] ++ visits).
      rewrite He, Hu, Hp, Hfs, Htr. cbn [append_entry _entries url page].
      rewrite (writerow_fs _ _ _ old) by exact Hold.
      change (trace (writerow FILENAME data w1)) with (trace w1). rewrite Htr1.
      change (fs w1) with (fs w).
      rewrite insert_insert_eq, <- !app_assoc.
      repeat split; auto.
      * repeat constructor. exact Hv.
      * rewrite fmap_cons, Hurl. apply sublist_skip, Hsub.
      * constructor; [|exact Hm]. eexists. split; [exact Hcoord|].
        apply coords_match_true, E.
    + intros H.
      apply (IH _ _ old) in H
        as (rows & visits & He & Hu & Hp & Hfs & Htr & Hv & Hsub & Hm & Hl & Hr);
        [|exact Hold].
      exists rows, ([Goto u; Content] ++ visits).
      rewrite He, Hu, Hp, Hfs, Htr, Htr1, <- !app_assoc.
      repeat split; auto.
      * repeat constructor. exact Hv.
      * apply sublist_cons, Hsub.
    + intros [= <- <- <-]. exists [], [Goto u; Content].
      rewrite Htr1, !app_nil_r. change (fs w1) with (fs w).
      rewrite insert_id by exact Hold.
      repeat split; auto.
      * repeat constructor.
      * apply sublist_nil_l.
      * right. left. apply coords_match_raise in E as [msg ->]. eauto.
  - cbn [run_links]. intros [= <- <- <-]. exists [], [GotoNone; Content].
    cbn [await fs trace]. rewrite !app_nil_r, <- app_assoc, insert_id by exact Hold.
    repeat split; auto.
    + repeat constructor.
    + apply sublist_nil_l.
    + right. right. eauto.
Qed.

(** The state after the first iterations is the state the loop continues
    from. *)
Lemma run_links_app main done : forall rest self w,
  run_links b soup_text main (done ++ rest) self w =
    match run_links b soup_text main done self w with
    | (Ok _, self1, w1) => run_links b soup_text main rest self1 w1
    | (Raise e, self1, w1) => (Raise e, self1, w1)
    end.
Proof.
  induction done as [|[u|] done IH]; intros rest self w; [reflexivity| |reflexivity].
  cbn [app run_links].
  destruct (coords_match main (extract_lat_lang_from_url u)) as [[|]|e];
    [apply IH|apply IH|reflexivity].
Qed.

(** The loop stops at the first link without coordinates. *)
Lemma run_links_stops_at_unparsed main u rest self w :
  extract_lat_lang_from_url u = (NO_INFO, NO_INFO) ->
  exists msg w1,
    run_links b soup_text main (Some u :: rest) self w
    = (Raise (ValueError msg), self, w1).
Proof.
  intros Hu. cbn [run_links]. rewrite Hu.
  destruct (coords_match_no_info main (NO_INFO, NO_INFO)) as [msg ->]; [auto|].
  eauto.
Qed.

End Links.

(** ** The run as a whole *)

Section Run.

Variable b : browser.
Variable soup_text : field -> string -> option string.

(** The world in which the loop over the links starts: the sink opened
    for appending, the header row written. *)
Definition sink_opened (w : world) : world :=
  writerow FILENAME FIELD_NAMES (open FILENAME Append w).

(** The calls, after the navigation, of a run that a missing results pane
    stops: the query for the pane, in the pass of [search] or, after that
    pass, in the pass of [run]. *)
Definition pane_lost (tr : list event) : Prop :=
  tr = [QuerySelector LeftBar] \/
  exists p1, discovery_pass p1 /\ tr = p1 ++ [QuerySelector LeftBar].

(** A run on a bound page is stopped by a missing pane before the sink is
    opened, or it gets to the loop over the links. *)
Lemma run_cases fuel self w r self' w' :
  run b soup_text fuel self w = Some (r, self', w') -> page self = true ->
  ((exists msg, r = Raise (AttributeError msg)) /\ self' = self /\ fs w' = fs w /\
   exists tr, trace w' = trace w ++ Goto (url self) :: tr /\ pane_lost tr) \/
  (exists w1 urls w2,
      search b fuel self w = Some (Ok (), w1) /\
      _get_search_results_urls b fuel w1 = Some (Ok urls, w2) /\
      run_links b soup_text (extract_lat_lang_from_url (url self)) urls self
                (sink_opened w2) = (r, self', w')).
Proof.
  unfold run. intros H Hpage. rewrite Hpage in H. cbn in H.
  destruct (search b fuel self w) as [[[[]|e] w1]|] eqn:Es; [| |discriminate].
  - destruct (_get_search_results_urls b fuel w1) as [[[urls|e] w2]|] eqn:Eu;
      [| |discriminate].
    + injection H as H. right. eauto 10.
    + injection H as <- <- <-. left.
      apply search_effect in Es as (_ & Hfs1 & p1 & Htr1 & Hp1).
      apply get_search_results_urls_raise in Eu as (_ & [msg ->] & ->).
      repeat split; [eauto|exact Hfs1|].
      exists (p1 ++ [QuerySelector LeftBar]). split.
      * cbn [await trace]. rewrite Htr1, <- app_assoc. reflexivity.
      * right. eauto.
  - injection H as <- <- <-. left.
    apply search_raise in Es as [(Hp & _)|(_ & [msg ->] & _ & ->)]; [congruence|].
    repeat split; [eauto|].
    exists [QuerySelector LeftBar]. split.
    + cbn [await trace]. rewrite <- app_assoc. reflexivity.
    + left. reflexivity.
Qed.


Lemma sink_opened_fs w :
  fs (sink_opened w) = <[FILENAME := file FILENAME w ++ [FIELD_NAMES]]> (fs w) /\
  trace (sink_opened w) = trace w ++ [Open FILENAME Append].
Proof.
  unfold sink_opened. split; [|reflexivity].
  rewrite (writerow_fs _ _ _ (file FILENAME w)) by apply lookup_insert_eq.
  cbn. apply insert_insert_eq.
Qed.

(** Everything a run that gets to the loop over the links leaves behind. *)
Lemma run_effect fuel self w w1 urls w2 r self' w' :
  search b fuel self w = Some (Ok (), w1) ->
  _get_search_results_urls b fuel w1 = Some (Ok urls, w2) ->
  run_links b soup_text (extract_lat_lang_from_url (url self)) urls self
            (sink_opened w2) = (r, self', w') ->
  exists rows p1 p2 visits,
    _entries self' = _entries self ++ rows /\
    fs w' = <[FILENAME := file FILENAME w ++ FIELD_NAMES :: rows]> (fs w) /\
    trace w' = trace w ++ Goto (url self) :: p1 ++ p2 ++ Open FILENAME Append :: visits /\
    discovery_pass p1 /\ discovery_pass p2 /\ Forall visit_event visits /\
    sublist (row_url <$> rows) urls /\
    Forall (row_matches (extract_lat_lang_from_url (url self))) rows /\
    Forall (fun r => length r = 7%nat) rows /\
    (r = Ok () \/ (exists msg, r = Raise (ValueError msg)) \/
     (exists msg, r = Raise (TypeError msg))).
Proof.
  intros Hs Hu Hl.
  apply search_effect in Hs as (_ & Hfs1 & p1 & Htr1 & Hp1).
  apply get_search_results_urls_effect in Hu as (Hfs2 & p2 & Htr2 & Hp2).
  destruct (sink_opened_fs w2) as [Hfs3 Htr3].
  assert (file FILENAME w2 = file FILENAME w) as Hfile
    by (unfold file; rewrite Hfs2, Hfs1; reflexivity).
  apply (run_links_effect _ _ _ _ _ _ (file FILENAME w ++ [FIELD_NAMES])) in Hl
    as (rows & visits & He & _ & _ & Hfs & Htr & Hv & Hsub & Hm & Hlen & Hr).
  2:{ rewrite Hfs3, Hfile. apply lookup_insert_eq. }
  exists rows, p1, p2, visits.
  repeat split; try assumption.
  - rewrite Hfs, Hfs3, Hfile, Hfs2, Hfs1, insert_insert_eq, <- app_assoc. reflexivity.
  - rewrite Htr, Htr3, Htr2, Htr1. cbn. rewrite <- !app_assoc. reflexivity.
Qed.

Lemma get_search_results_urls_returns fuel w :
  paced b -> (101 <= fuel)%nat ->
  exists res, _get_search_results_urls b fuel w = Some res.
Proof.
  intros Hpaced Hfuel. unfold _get_search_results_urls.
  destruct (pane_found b (ticks w)) eqn:Ep;
    [rewrite (hover_found b w Ep)|rewrite (hover_missing b w Ep); eauto].
  destruct (scroll_loop_returns b Hpaced fuel
              (await b (Sleep (1 # 2)) (await b Hover (await b (QuerySelector LeftBar) w)))
              Hfuel) as [[finish w1] ->].
  destruct (scrape_urls b w1). eauto.
Qed.


End Run.

(** ** A sample search *)

(** A browser that finds the results pane, shows the end marker at once and
    lists [links], each with its [href]; a pause lasts as long as asked and
    no other call takes time. *)
Definition demo_browser (links : list string) : browser :=
  {| duration := fun _ e => match e with Sleep d => d | _ => 0%Q end;
     pane_found := fun _ => true;
     end_marker := fun _ => true;
     hrefs := fun _ => Some <$> links;
     content := fun _ => "<html></html>" |}.

Definition demo_soup (f : field) (html : string) : option string :=
  match f with
  | Title => Some "Gym"
  | _ => None
  end.

Definition astana_url : string :=
  "https://www.google.com/maps/search/gym%20Astana/@51.1801,71.446,12z/data=!3m1!4b1?entry=ttu".
Definition near_link : string :=
  "https://www.google.com/maps/place/Gym/data=!4m7!3m6!8m2!3d51.1694!4d71.4491!16s?entry=ttu".
Definition far_link : string :=
  "https://www.google.com/maps/place/Gym/data=!4m7!3m6!8m2!3d40.71!4d-74.00!16s?entry=ttu".
Definition bare_link : string := "https://www.google.com/maps/place/Gym?entry=ttu".

Definition near_row : row :=
  ["Gym"; "No Info"; "No Info"; "No Info"; near_link; "51.1694"; "71.4491"].

Definition fresh_engine : engine :=
  {| url := astana_url; page := true; _entries := [] |}.

(** What can be seen of a finished run: how it ended, the entries, the rows
    of the sink and the calls made. *)
Definition observed (x : option (result unit * engine * world))
  : option (result unit * list row * list row * list event) :=
  match x with
  | Some (r, self, w) => Some (r, _entries self, file FILENAME w, trace w)
  | None => None
  end.

Lemma demo_browser_paced links : paced (demo_browser links).
Proof. repeat split; intros; cbn; unfold SLEEP_PER_SCROLL_S; lra. Qed.

(** ** The claims about [run] *)

(** C1 on the code: a link whose URL matches neither pattern ends the run
    with [ValueError]; the link after it, which alone is accepted, is never
    visited. *)
Theorem run_aborts_on_unparsed_link :
  extract_lat_lang_from_url bare_link = (NO_INFO, NO_INFO) /\
  observed (run (demo_browser [bare_link; near_link]) demo_soup 1 fresh_engine empty_world)
  = Some (Raise (ValueError "could not convert string to float: 'No Info'"),
          [], [FIELD_NAMES],
          [Goto astana_url;
           QuerySelector LeftBar; Hover; Sleep (1 # 2);
           Wheel 1000; Sleep SLEEP_PER_SCROLL_S; QuerySelector EndMarker;
           QuerySelectorAll ResultLinks; GetAttribute; GetAttribute;
           QuerySelector LeftBar; Hover; Sleep (1 # 2);
           Wheel 1000; Sleep SLEEP_PER_SCROLL_S; QuerySelector EndMarker;
           QuerySelectorAll ResultLinks; GetAttribute; GetAttribute;
           Open FILENAME Append;
           Goto bare_link; Content]) /\
  observed (run (demo_browser [near_link]) demo_soup 1 fresh_engine empty_world)
  = Some (Ok (), [near_row], [FIELD_NAMES; near_row],
          [Goto astana_url;
           QuerySelector LeftBar; Hover; Sleep (1 # 2);
           Wheel 1000; Sleep SLEEP_PER_SCROLL_S; QuerySelector EndMarker;
           QuerySelectorAll ResultLinks; GetAttribute;
           QuerySelector LeftBar; Hover; Sleep (1 # 2);
           Wheel 1000; Sleep SLEEP_PER_SCROLL_S; QuerySelector EndMarker;
           QuerySelectorAll ResultLinks; GetAttribute;
           Open FILENAME Append;
           Goto near_link; Content]).
Proof. vm_compute. repeat split. Qed.

(** C9 on the code: one call of [run] goes to the search URL once and then
    makes the discovery pass twice, hover, scroll and scrape, once inside
    [search] and once for the links it iterates over. *)
Theorem run_discovers_twice :
  observed (run (demo_browser [near_link; far_link]) demo_soup 1 fresh_engine empty_world)
  = Some (Ok (), [near_row], [FIELD_NAMES; near_row],
          [Goto astana_url;
           QuerySelector LeftBar; Hover; Sleep (1 # 2);
           Wheel 1000; Sleep SLEEP_PER_SCROLL_S; QuerySelector EndMarker;
           QuerySelectorAll ResultLinks; GetAttribute; GetAttribute;
           QuerySelector LeftBar; Hover; Sleep (1 # 2);
           Wheel 1000; Sleep SLEEP_PER_SCROLL_S; QuerySelector EndMarker;
           QuerySelectorAll ResultLinks; GetAttribute; GetAttribute;
           Open FILENAME Append;
           Goto near_link; Content; Goto far_link; Content]).
Proof. vm_compute. reflexivity. Qed.



(** C7, as stated, fails: a second run of the same engine writes one data
    row and leaves two entries, the row of the first run and its own. *)
Lemma second_run_keeps_earlier_entries :
  exists self1 w1,
    run (demo_browser [near_link]) demo_soup 1 fresh_engine empty_world
      = Some (Ok (), self1, w1) /\
    file FILENAME w1 = [FIELD_NAMES; near_row] /\
    exists self2 w2,
      run (demo_browser [near_link]) demo_soup 1 self1 w1 = Some (Ok (), self2, w2) /\
      file FILENAME w2 = file FILENAME w1 ++ [FIELD_NAMES; near_row] /\
      _entries self2 = [near_row; near_row].
Proof.
  eexists _, _. split; [vm_compute; reflexivity|]. split; [vm_compute; reflexivity|].
  eexists _, _. split; [vm_compute; reflexivity|]. split; vm_compute; reflexivity.
Qed.

(** C7, amended: after a run the entries are the entries the engine held
    before, followed by exactly the data rows the run wrote to the sink, in
    the same order, so on a first run exactly those rows; this holds after
    every iteration of the loop over the links, also when a later iteration
    raises.  A run that does not find the results pane writes no row and
    keeps the entries as they were. *)
Theorem run_entries_follow_sink (b : browser) (soup_text : field -> string -> option string)
        (fuel : nat) (self : engine) (w : world) r self' w' :
  run b soup_text fuel self w = Some (r, self', w') -> page self = true ->
  ((exists msg, r = Raise (AttributeError msg)) /\
   _entries self' = _entries self /\ fs w' = fs w) \/
  exists w1 urls w2 rows,
    search b fuel self w = Some (Ok (), w1) /\
    _get_search_results_urls b fuel w1 = Some (Ok urls, w2) /\
    _entries self' = _entries self ++ rows /\
    fs w' !! FILENAME = Some (file FILENAME w ++ FIELD_NAMES :: rows) /\
    (_entries self = [] -> _entries self' = rows) /\
    forall done rest, urls = done ++ rest ->
      exists r1 self1 w1' rows1,
        run_links b soup_text (extract_lat_lang_from_url (url self)) done self
                  (sink_opened w2) = (r1, self1, w1') /\
        _entries self1 = _entries self ++ rows1 /\
        fs w1' !! FILENAME = Some (file FILENAME w ++ FIELD_NAMES :: rows1) /\
        (r1 = Ok () ->
         run_links b soup_text (extract_lat_lang_from_url (url self)) rest self1 w1'
         = (r, self', w')).
Proof.
  intros H Hpage.
  destruct (run_cases _ _ _ _ _ _ _ _ H Hpage)
    as [(Hmsg & -> & Hfs0 & _)|(w1 & urls & w2 & Hs & Hu & Hl)]; [left; auto|right].
  destruct (run_effect _ _ _ _ _ _ _ _ _ _ _ Hs Hu Hl)
    as (rows & p1 & p2 & visits & He & Hfs & _).
  exists w1, urls, w2, rows. repeat split; try assumption.
  - rewrite Hfs. apply lookup_insert_eq.
  - intros Hnil. rewrite He, Hnil. reflexivity.
  - intros done rest ->.
    destruct (run_links b soup_text _ done self (sink_opened w2))
      as [[r1 self1] w3] eqn:Ed.
    assert (file FILENAME w2 = file FILENAME w) as Hfile.
    { unfold file.
      apply search_effect in Hs as (_ & Hfs1 & _).
      apply get_search_results_urls_effect in Hu as (Hfs2 & _).
      rewrite Hfs2, Hfs1. reflexivity. }
    destruct (sink_opened_fs w2) as [Hfs3 _].
    pose proof Ed as Ed'.
    apply (run_links_effect _ _ _ _ _ _ (file FILENAME w ++ [FIELD_NAMES])) in Ed'
      as (rows1 & visits1 & He1 & _ & _ & Hfs1 & _).
    2:{ rewrite Hfs3, Hfile. apply lookup_insert_eq. }
    exists r1, self1, w3, rows1. repeat split; try assumption.
    + rewrite Hfs1, <- app_assoc. apply lookup_insert_eq.
    + intros ->. rewrite run_links_app, Ed in Hl. exact Hl.
Qed.

Lemma run_entries_follow_sink_witness :
  exists r self' w',
    run (demo_browser [near_link; far_link]) demo_soup 1 fresh_engine empty_world
      = Some (r, self', w') /\
    (((exists msg, r = Raise (AttributeError msg)) /\
      _entries self' = _entries fresh_engine /\ fs w' = fs empty_world) \/
     exists rows,
       _entries self' = _entries fresh_engine ++ rows /\
       fs w' !! FILENAME = Some (file FILENAME empty_world ++ FIELD_NAMES :: rows)).
Proof.
  destruct (run (demo_browser [near_link; far_link]) demo_soup 1 fresh_engine empty_world)
    as [[[r self'] w']|] eqn:E.
  - exists r, self', w'. split; [reflexivity|].
    destruct (run_entries_follow_sink _ _ _ _ _ _ _ _ E eq_refl)
      as [H|(w1 & urls & w2 & rows & _ & _ & He & Hfs & _)]; [left; exact H|right].
    exists rows. split; assumption.
  - vm_compute in E. discriminate E.
Defined.

(** A browser that never finds the results pane. *)
Definition no_pane_browser : browser :=
  {| duration := fun _ e => match e with Sleep d => d | _ => 0%Q end;
     pane_found := fun _ => false;
     end_marker := fun _ => true;
     hrefs := fun _ => [];
     content := fun _ => "<html></html>" |}.




(** A run that accepts nothing leaves the header behind what the file held. *)
Example run_header_only :
  observed (run (demo_browser [far_link]) demo_soup 1 fresh_engine
                (with_fs {[FILENAME := [near_row]]} empty_world))
  = Some (Ok (), [], [near_row; FIELD_NAMES],
          [Goto astana_url;
           QuerySelector LeftBar; Hover; Sleep (1 # 2);
           Wheel 1000; Sleep SLEEP_PER_SCROLL_S; QuerySelector EndMarker;
           QuerySelectorAll ResultLinks; GetAttribute;
           QuerySelector LeftBar; Hover; Sleep (1 # 2);
           Wheel 1000; Sleep SLEEP_PER_SCROLL_S; QuerySelector EndMarker;
           QuerySelectorAll ResultLinks; GetAttribute;
           Open FILENAME Append;
           Goto far_link; Content]).
Proof. vm_compute. reflexivity. Qed.

(** ** [save_to_csv] *)

(** C8: with no entry [save_to_csv] raises and leaves the world as it was,
    no file opened, created or written; with entries it opens the target
    for writing and leaves in it the header row followed by all the entries,
    other files untouched. *)
Theorem save_to_csv_all_or_nothing (filename : option string) (self : engine) (w : world) :
  (_entries self = [] ->
   exists msg, save_to_csv filename self w = (Raise (NotImplementedError msg), w)) /\
  (_entries self <> [] ->
   exists w',
     save_to_csv filename self w = (Ok (), w') /\
     fs w' = <[filename_or_default filename := FIELD_NAMES :: _entries self]> (fs w) /\
     trace w' = trace w ++ [Open (filename_or_default filename) Truncate]).
Proof.
  unfold save_to_csv. split.
  - intros ->. eauto.
  - intros Hne. destruct (_entries self) as [|e es] eqn:E; [contradiction|].
    eexists. split; [reflexivity|].
    set (name := filename_or_default filename).
    set (w1 := writerow name FIELD_NAMES (open name Truncate w)).
    assert (fs w1 = <[name := [FIELD_NAMES]]> (fs w)) as Hfs1.
    { unfold w1. rewrite (writerow_fs _ _ _ []) by apply lookup_insert_eq.
      cbn. apply insert_insert_eq. }
    split.
    + rewrite (writerows_fs _ _ _ [FIELD_NAMES]) by (rewrite Hfs1; apply lookup_insert_eq).
      rewrite Hfs1, insert_insert_eq. reflexivity.
    + rewrite writerows_trace. reflexivity.
Qed.

Example save_to_csv_empty :
  save_to_csv (Some "leads.csv") fresh_engine empty_world
  = (Raise (NotImplementedError "Entries are empty, call .run() method first to save them"),
     empty_world).
Proof. reflexivity. Qed.

Example save_to_csv_one_entry :
  let '(r, w') := save_to_csv None (append_entry near_row fresh_engine)
                              (with_fs {[FILENAME := [far_link :: near_row]]} empty_world) in
  (r, fs w' !! FILENAME, trace w')
  = (Ok (), Some [FIELD_NAMES; near_row], [Open FILENAME Truncate]).
Proof. vm_compute. reflexivity. Qed.

(** * Beyond the claims *)

(** ** More on strings and on the matcher *)

(** Every character of [s] is in [cls]. *)
Fixpoint all_chars (cls : ascii -> bool) (s : string) : bool :=
  match s with
  | EmptyString => true
  | String c s' => cls c && all_chars cls s'
  end.

(** A non-empty string over [[-.0-9]]. *)
Definition coord_string (s : string) : Prop :=
  s <> EmptyString /\ all_chars coord_char s = true.

(** [s] begins with a character of [[-.0-9]]. *)
Definition starts_with_coord (s : string) : bool :=
  match s with
  | String c _ => coord_char c
  | EmptyString => false
  end.

Definition is_not (c : ascii) : ascii -> bool := fun x => negb (Ascii.eqb c x).

(** The capture classes of a pattern, in order. *)
Fixpoint classes (re : Re.regex) : list (ascii -> bool) :=
  match re with
  | [] => []
  | Re.Lit _ :: re' => classes re'
  | Re.Cap cls :: re' => cls :: classes re'
  end.

Section StrFacts.

Lemma app_nil (t : string) : EmptyString +:+ t = t.
Proof. reflexivity. Qed.

Lemma app_cons (c : ascii) (a t : string) : String c a +:+ t = String c (a +:+ t).
Proof. reflexivity. Qed.

Lemma append_assoc (a c d : string) : (a +:+ c) +:+ d = a +:+ c +:+ d.
Proof.
  induction a as [|x a IH]; [reflexivity|]. rewrite !app_cons. f_equal. exact IH.
Qed.

Lemma prefix_take k : forall s, Str.prefix (Str.take k s) s = true.
Proof.
  induction k as [|k IH]; intros [|c s]; cbn; try reflexivity.
  rewrite Ascii.eqb_refl. apply IH.
Qed.

Lemma take_app_length a : forall t, Str.take (String.length a) (a +:+ t) = a.
Proof.
  induction a as [|c a IH]; intros t; [destruct t; reflexivity|].
  rewrite app_cons. cbn. rewrite IH. reflexivity.
Qed.

Lemma drop_app_length a : forall t, Str.drop (String.length a) (a +:+ t) = t.
Proof.
  induction a as [|c a IH]; intros t; [destruct t; reflexivity|].
  rewrite app_cons. cbn. apply IH.
Qed.

Lemma span_app cls a : forall t,
  all_chars cls a = true -> Str.span cls (a +:+ t) = (String.length a + Str.span cls t)%nat.
Proof.
  induction a as [|c a IH]; intros t; [reflexivity|].
  rewrite app_cons. cbn. intros [-> H]%andb_true_iff. rewrite IH by exact H. reflexivity.
Qed.

Lemma all_chars_take cls k : forall s,
  (k <= Str.span cls s)%nat -> all_chars cls (Str.take k s) = true.
Proof.
  induction k as [|k IH]; intros [|c s]; cbn; try reflexivity; try lia.
  destruct (cls c) eqn:E; [|lia]. intros H. cbn. apply IH. lia.
Qed.

Lemma take_nonempty cls k s :
  (1 <= k <= Str.span cls s)%nat -> Str.take k s <> EmptyString.
Proof.
  destruct k as [|k]; [lia|]. destruct s as [|c s]; cbn; [lia|]. discriminate.
Qed.

Lemma all_chars_app cls a t :
  all_chars cls (a +:+ t) = all_chars cls a && all_chars cls t.
Proof.
  induction a as [|c a IH]; [reflexivity|]. rewrite app_cons. cbn.
  rewrite IH. apply andb_assoc.
Qed.

Lemma all_chars_impl (cls cls' : ascii -> bool) s :
  (forall c, cls c = true -> cls' c = true) ->
  all_chars cls s = true -> all_chars cls' s = true.
Proof.
  intros Himpl. induction s as [|c s IH]; cbn; [reflexivity|].
  intros [Hc Hs]%andb_true_iff. rewrite (Himpl _ Hc). apply IH, Hs.
Qed.

(** A pattern that begins with [c] occurs in [s +:+ t] only inside [t] when
    [c] is not in [s]. *)
Lemma contains_skip c p s t :
  all_chars (is_not c) s = true ->
  Str.contains (String c p) (s +:+ t) = Str.contains (String c p) t.
Proof.
  induction s as [|x s IH]; [reflexivity|].
  cbn [all_chars]. intros [Hx Hs]%andb_true_iff.
  rewrite app_cons. cbn [Str.contains Str.prefix].
  unfold is_not in Hx. apply negb_true_iff in Hx. rewrite Hx. cbn.
  apply IH, Hs.
Qed.

End StrFacts.

Section MoreReFacts.

Import Re.

(** What a match captures: a non-empty string of the class of its group,
    which stands in the text. *)
Lemma match_here_captures re : forall s gs,
  match_here re s = Some gs ->
  Forall2 (fun cls g => g <> EmptyString /\ all_chars cls g = true) (classes re) gs /\
  Forall (fun g => Str.contains g s = true) gs.
Proof.
  induction re as [|[c|cls] re IH]; intros s gs H.
  - injection H as <-. split; constructor.
  - apply match_here_lit in H as (s' & -> & H). apply IH in H as [H2 Hin].
    split; [exact H2|]. eapply Forall_impl; [exact Hin|].
    intros g. apply Str.contains_cons.
  - apply match_here_cap in H as (k & gs' & -> & H & Hk).
    apply IH in H as [H2 Hin]. split.
    + constructor; [|exact H2]. split.
      * eapply take_nonempty, Hk.
      * apply all_chars_take. lia.
    + constructor.
      * apply Str.contains_prefix, prefix_take.
      * eapply Forall_impl; [exact Hin|]. intros g. apply Str.contains_drop.
Qed.

Lemma search_captures re s gs :
  search re s = Some gs ->
  Forall2 (fun cls g => g <> EmptyString /\ all_chars cls g = true) (classes re) gs /\
  Forall (fun g => Str.contains g s = true) gs.
Proof.
  intros H. apply search_found in H as [n H]. apply match_here_captures in H as [H2 Hin].
  split; [exact H2|]. eapply Forall_impl; [exact Hin|]. intros g. apply Str.contains_drop.
Qed.

(** A group takes a whole run of its class when a character outside the
    class follows in the pattern. *)
Lemma match_here_cap_run cls re a t gs :
  a <> EmptyString -> all_chars cls a = true -> Str.span cls t = 0%nat ->
  match_here re t = Some gs ->
  match_here (Cap cls :: re) (a +:+ t) = Some (a :: gs).
Proof.
  intros Ha Hall Ht Hm. cbn [match_here].
  rewrite (span_app _ _ _ Hall), Ht, Nat.add_0_r.
  destruct a as [|c a]; [contradiction|]. cbn [String.length].
  change (S (String.length a)) with (String.length (String c a)).
  rewrite drop_app_length, Hm, take_app_length. reflexivity.
Qed.

(** The search passes over a stretch that lacks the first character of the
    pattern. *)
Lemma search_skip c re pre t :
  all_chars (is_not c) pre = true ->
  search (Lit c :: re) (pre +:+ t) = search (Lit c :: re) t.
Proof.
  induction pre as [|x pre IH]; [reflexivity|].
  cbn [all_chars]. intros [Hx Hs]%andb_true_iff.
  unfold is_not in Hx. apply negb_true_iff in Hx.
  rewrite app_cons. cbn [search match_here]. rewrite Hx. apply IH, Hs.
Qed.

Lemma match_here_lit_eq c re s : match_here (Lit c :: re) (String c s) = match_here re s.
Proof. cbn [match_here]. rewrite Ascii.eqb_refl. reflexivity. Qed.

Lemma search_here re s gs : match_here re s = Some gs -> search re s = Some gs.
Proof. intros H. destruct s; cbn [search]; rewrite H; reflexivity. Qed.

End MoreReFacts.

(** ** The constructor *)

(** [sep.join(l)] *)
Fixpoint join (sep : string) (l : list string) : string :=
  match l with
  | [] => EmptyString
  | [x] => x
  | x :: l' => x +:+ sep +:+ join sep l'
  end.

(** [BASE_URL.format(query=query, coords=coords, zoom=zoom)] *)
Definition BASE_URL (query coords zoom : string) : string :=
  "https://www.google.com/maps/search/" +:+ query +:+ "/@" +:+ coords +:+ ","
    +:+ zoom +:+ "z/data=!3m1!4b1?entry=ttu".

(** [GoogleMapsEngine(query, location, zoom)].  [coords] holds the [str] of
    each number that [get_coords_by_location(location)] gave and [zoom] the
    [str] of the zoom. *)
Definition __init__ (query location : string) (coords : list string) (zoom : string)
  : engine :=
  let search_query := query +:+ "%20" +:+ location in
  {| url := BASE_URL search_query (join "," coords) zoom;
     page := false;
     _entries := [] |}.

Example init_astana :
  url (__init__ "gym" "Astana" ["51.1801"; "71.446"] "12") = astana_url.
Proof. reflexivity. Qed.

(** ** More on the coordinate parser *)

Lemma coord_char_not_bang c : coord_char c = true -> is_not "!" c = true.
Proof. destruct c as [[] [] [] [] [] [] [] []]; cbn; intros H; try reflexivity; discriminate H. Qed.

Lemma span_not_coord s : starts_with_coord s = false -> Str.span coord_char s = 0%nat.
Proof. destruct s as [|c s]; cbn; [reflexivity|]. intros ->. reflexivity. Qed.

Lemma match_place_here lat lang post :
  coord_string lat -> coord_string lang -> starts_with_coord post = false ->
  Re.match_here place_re ("!3d" +:+ lat +:+ "!4d" +:+ lang +:+ post) = Some [lat; lang].
Proof.
  intros [Hlat1 Hlat2] [Hlang1 Hlang2] Hpost. unfold place_re.
  change ("!3d" +:+ lat +:+ "!4d" +:+ lang +:+ post)
    with (String "!" (String "3" (String "d"
            (lat +:+ String "!" (String "4" (String "d" (lang +:+ post))))))).
  rewrite !match_here_lit_eq.
  apply match_here_cap_run; [assumption|assumption|reflexivity|].
  rewrite !match_here_lit_eq.
  apply match_here_cap_run; [assumption|assumption|apply span_not_coord, Hpost|reflexivity].
Qed.

Lemma match_center_here lat lang post :
  coord_string lat -> coord_string lang ->
  Re.match_here center_re ("@" +:+ lat +:+ "," +:+ lang +:+ "," +:+ post) = Some [lat; lang].
Proof.
  intros [Hlat1 Hlat2] [Hlang1 Hlang2]. unfold center_re.
  change ("@" +:+ lat +:+ "," +:+ lang +:+ "," +:+ post)
    with (String "@" (lat +:+ String "," (lang +:+ String "," post))).
  rewrite !match_here_lit_eq.
  apply match_here_cap_run; [assumption|assumption|reflexivity|].
  rewrite !match_here_lit_eq.
  apply match_here_cap_run; [assumption|assumption|reflexivity|].
  rewrite !match_here_lit_eq. reflexivity.
Qed.

(** The search for the place pattern passes over a stretch without [!3d]. *)
Lemma search_place_skip pre : forall t,
  Str.contains "!3d" pre = false ->
  Re.search place_re (pre +:+ "!3d" +:+ t) = Re.search place_re ("!3d" +:+ t).
Proof.
  induction pre as [|c pre IH]; intros t; [reflexivity|].
  cbn [Str.contains]. intros [Hpre Hrest]%orb_false_iff.
  rewrite app_cons. cbn [Re.search].
  destruct (Re.match_here place_re (String c (pre +:+ "!3d" +:+ t))) as [gs|] eqn:E;
    [|apply IH, Hrest].
  exfalso. unfold place_re in E.
  apply match_here_lit in E as (s1 & E1 & E).
  apply match_here_lit in E as (s2 & -> & E).
  apply match_here_lit in E as (s3 & -> & E).
  injection E1 as -> E1.
  destruct pre as [|c2 [|c3 pre]].
  - discriminate E1.
  - discriminate E1.
  - rewrite !app_cons in E1. injection E1 as -> -> _. discriminate Hpre.
Qed.

Lemma search_center_found pre lat lang post :
  all_chars (is_not "@") pre = true -> coord_string lat -> coord_string lang ->
  Re.search center_re (pre +:+ "@" +:+ lat +:+ "," +:+ lang +:+ "," +:+ post)
  = Some [lat; lang].
Proof.
  intros Hpre Hlat Hlang. unfold center_re at 1. rewrite search_skip by exact Hpre.
  apply search_here, match_center_here; assumption.
Qed.

(** X1: the parser gives either the sentinel pair or two captures, each a
    non-empty string over [[-.0-9]] that stands in the URL. *)
Theorem extract_sentinel_or_captures (url : string) :
  extract_lat_lang_from_url url = (NO_INFO, NO_INFO) \/
  exists lat lang,
    extract_lat_lang_from_url url = (lat, lang) /\
    coord_string lat /\ coord_string lang /\
    Str.contains lat url = true /\ Str.contains lang url = true.
Proof.
  unfold extract_lat_lang_from_url.
  destruct (Str.contains "!3d" url && Str.contains "!4d" url).
  - destruct (Re.search place_re url) as [gs|] eqn:E; [right|left; reflexivity].
    apply search_captures in E as [H2 Hin]. cbn in H2.
    inversion H2 as [|? lat ? gs1 Hlat H2' ]; subst.
    inversion H2' as [|? lang ? gs2 Hlang H2'']; subst.
    inversion H2''; subst.
    inversion Hin as [|? ? Hin1 Hin']; subst. inversion Hin' as [|? ? Hin2 _]; subst.
    exists lat, lang. repeat split; try assumption; [apply Hlat|apply Hlat|apply Hlang|apply Hlang].
  - destruct (Re.search center_re url) as [gs|] eqn:E; [right|left; reflexivity].
    apply search_captures in E as [H2 Hin]. cbn in H2.
    inversion H2 as [|? lat ? gs1 Hlat H2' ]; subst.
    inversion H2' as [|? lang ? gs2 Hlang H2'']; subst.
    inversion H2''; subst.
    inversion Hin as [|? ? Hin1 Hin']; subst. inversion Hin' as [|? ? Hin2 _]; subst.
    exists lat, lang. repeat split; try assumption; [apply Hlat|apply Hlat|apply Hlang|apply Hlang].
Qed.

(** X2: a URL that holds [!3d<lat>!4d<lang>], with both numbers non-empty
    strings over [[-.0-9]], no [!3d] before it and no character of
    [[-.0-9]] right after it, is parsed to [(lat, lang)], whatever stands
    before and after, a map centre included. *)
Theorem extract_place_round_trip (pre lat lang post : string) :
  coord_string lat -> coord_string lang ->
  Str.contains "!3d" pre = false -> starts_with_coord post = false ->
  extract_lat_lang_from_url (pre +:+ "!3d" +:+ lat +:+ "!4d" +:+ lang +:+ post)
  = (lat, lang).
Proof.
  intros Hlat Hlang Hpre Hpost.
  assert (Re.search place_re (pre +:+ "!3d" +:+ lat +:+ "!4d" +:+ lang +:+ post)
          = Some [lat; lang]) as Hs.
  { rewrite search_place_skip by exact Hpre.
    apply search_here, match_place_here; assumption. }
  unfold extract_lat_lang_from_url.
  destruct (search_place_markers _ _ Hs) as [-> ->]. cbn [andb].
  rewrite Hs. reflexivity.
Qed.

Lemma extract_place_round_trip_witness :
  extract_lat_lang_from_url
    ("https://www.google.com/maps/place/Gym/@51.1,71.4,17z/data=!4m7!3m6!8m2"
       +:+ "!3d" +:+ "51.1694" +:+ "!4d" +:+ "71.4491" +:+ "!16s?entry=ttu")
  = ("51.1694", "71.4491").
Proof.
  apply (extract_place_round_trip
           "https://www.google.com/maps/place/Gym/@51.1,71.4,17z/data=!4m7!3m6!8m2"
           "51.1694" "71.4491" "!16s?entry=ttu").
  - split; [discriminate|reflexivity].
  - split; [discriminate|reflexivity].
  - reflexivity.
  - reflexivity.
Defined.

(** X3: a URL that lacks one of the markers [!3d], [!4d] and holds
    [@<lat>,<lang>,] with no [@] before it, both numbers non-empty strings
    over [[-.0-9]], is parsed to [(lat, lang)]. *)
Theorem extract_center_round_trip (pre lat lang post : string) :
  coord_string lat -> coord_string lang ->
  all_chars (is_not "@") pre = true ->
  Str.contains "!3d" (pre +:+ "@" +:+ lat +:+ "," +:+ lang +:+ "," +:+ post)
  && Str.contains "!4d" (pre +:+ "@" +:+ lat +:+ "," +:+ lang +:+ "," +:+ post) = false ->
  extract_lat_lang_from_url (pre +:+ "@" +:+ lat +:+ "," +:+ lang +:+ "," +:+ post)
  = (lat, lang).
Proof.
  intros Hlat Hlang Hpre Hguard. unfold extract_lat_lang_from_url.
  rewrite Hguard, search_center_found by assumption. reflexivity.
Qed.

Lemma extract_center_round_trip_witness :
  extract_lat_lang_from_url
    ("https://www.google.com/maps/search/gym/" +:+ "@" +:+ "51.1801" +:+ ","
       +:+ "71.446" +:+ "," +:+ "12z/data=!3m1!4b1?entry=ttu")
  = ("51.1801", "71.446").
Proof.
  apply (extract_center_round_trip "https://www.google.com/maps/search/gym/"
           "51.1801" "71.446" "12z/data=!3m1!4b1?entry=ttu").
  - split; [discriminate|reflexivity].
  - split; [discriminate|reflexivity].
  - reflexivity.
  - reflexivity.
Defined.

(** X4: the reference coordinate that [run] parses back from the URL the
    constructor built is the pair of coordinates the constructor was given,
    as long as the query, the location and the zoom hold no [!] and the
    query and the location no [@]. *)
Theorem init_reference_coordinate (query location lat lang zoom : string) :
  all_chars (is_not "@") query = true -> all_chars (is_not "@") location = true ->
  all_chars (is_not "!") query = true -> all_chars (is_not "!") location = true ->
  all_chars (is_not "!") zoom = true ->
  coord_string lat -> coord_string lang ->
  extract_lat_lang_from_url (url (__init__ query location [lat; lang] zoom)) = (lat, lang).
Proof.
  intros Hq Hl Hq' Hl' Hz Hlat Hlang.
  set (pre := "https://www.google.com/maps/search/" +:+ query +:+ "%20" +:+ location +:+ "/").
  set (post := zoom +:+ "z/data=!3m1!4b1?entry=ttu").
  assert (url (__init__ query location [lat; lang] zoom)
          = pre +:+ "@" +:+ lat +:+ "," +:+ lang +:+ "," +:+ post) as ->.
  { unfold __init__, BASE_URL, pre, post. cbn [url join].
    rewrite !append_assoc. reflexivity. }
  unfold extract_lat_lang_from_url.
  assert (Str.contains "!3d" (pre +:+ "@" +:+ lat +:+ "," +:+ lang +:+ "," +:+ post) = false)
    as ->.
  { unfold pre, post.
    replace ((("https://www.google.com/maps/search/" +:+ query +:+ "%20" +:+ location +:+ "/")
              +:+ "@" +:+ lat +:+ "," +:+ lang +:+ "," +:+ zoom
              +:+ "z/data=!3m1!4b1?entry=ttu"))
      with (("https://www.google.com/maps/search/" +:+ query +:+ "%20" +:+ location +:+ "/@"
             +:+ lat +:+ "," +:+ lang +:+ "," +:+ zoom) +:+ "z/data=!3m1!4b1?entry=ttu")
      by (rewrite !append_assoc; reflexivity).
    rewrite contains_skip; [reflexivity|].
    destruct Hlat as [_ Hlat], Hlang as [_ Hlang].
    rewrite !all_chars_app, Hq', Hl', Hz.
    rewrite (all_chars_impl _ _ _ coord_char_not_bang Hlat).
    rewrite (all_chars_impl _ _ _ coord_char_not_bang Hlang). reflexivity. }
  cbn [andb]. rewrite search_center_found; [reflexivity| |assumption|assumption].
  unfold pre. rewrite !all_chars_app, Hq, Hl. reflexivity.
Qed.

Lemma init_reference_coordinate_witness :
  extract_lat_lang_from_url (url (__init__ "gym" "Astana" ["51.1801"; "71.446"] "12"))
  = ("51.1801", "71.446").
Proof.
  apply (init_reference_coordinate "gym" "Astana" "51.1801" "71.446" "12");
    try reflexivity; split; (discriminate || reflexivity).
Defined.

(** ** More on the scroll loop *)

(** One turn of the loop: a scroll, a pause, a look for the end marker. *)
Definition scroll_cycle : list event :=
  [Wheel 1000; Sleep SLEEP_PER_SCROLL_S; QuerySelector EndMarker].

Fixpoint cycles (n : nat) : list event :=
  match n with
  | 0 => []
  | S n' => scroll_cycle ++ cycles n'
  end.

Section ScrollLoopExact.

Variable b : browser.

(** A finished loop made [n + 1] turns: the look of turn [k] is call number
    [ticks w + 3 * k + 2]; the last look found the marker or the ceiling was
    passed, no look before it found the marker. *)
Lemma scroll_loop_exact fuel : forall start w finish w',
  scroll_loop b fuel start w = Some (finish, w') ->
  exists n,
    (S n <= fuel)%nat /\
    trace w' = trace w ++ cycles (S n) /\
    ticks w' = (ticks w + 3 * S n)%nat /\
    (end_marker b (ticks w + 3 * n + 2) = true \/
     (SCROLL_TIME_DURATION_S < finish - start)%Q) /\
    (forall k, (k < n)%nat -> end_marker b (ticks w + 3 * k + 2) = false).
Proof.
  induction fuel as [|fuel IH]; intros start w finish w'; [discriminate|].
  rewrite scroll_loop_S. cbv zeta.
  destruct (end_marker b (ticks (scroll_and_sleep b 1000 w))) eqn:Em; cbn [orb].
  - intros [= <- <-]. exists 0%nat. repeat split.
    + lia.
    + cbn. rewrite <- !app_assoc. reflexivity.
    + cbn. lia.
    + left. rewrite <- Em. f_equal. cbn. lia.
    + intros k Hk. lia.
  - destruct (Qgt_bool _ _) eqn:Et.
    + intros [= <- <-]. exists 0%nat. repeat split.
      * lia.
      * cbn. rewrite <- !app_assoc. reflexivity.
      * cbn. lia.
      * right. apply Qgt_bool_iff, Et.
      * intros k Hk. lia.
    + intros H. apply IH in H as (n & Hn & Htr & Htk & Hexit & Hearly).
      cbn [scroll_and_sleep await ticks trace] in Htr, Htk, Hexit, Hearly, Em.
      exists (S n). repeat split.
      * lia.
      * rewrite Htr. cbn. rewrite <- !app_assoc. reflexivity.
      * rewrite Htk. lia.
      * replace (ticks w + 3 * S n + 2)%nat with (S (S (S (ticks w))) + 3 * n + 2)%nat by lia.
        exact Hexit.
      * intros k Hk. destruct k as [|k].
        -- rewrite <- Em. f_equal. lia.
        -- replace (ticks w + 3 * S k + 2)%nat with (S (S (S (ticks w))) + 3 * k + 2)%nat
             by lia.
           apply Hearly. lia.
Qed.

End ScrollLoopExact.

(** X5: a finished scroll loop has made at least one turn, and at most as
    many as its bound allows, also when the end marker is there from the
    start; it calls nothing but these turns, so every scroll is followed by
    a pause of [SLEEP_PER_SCROLL_S] and one look for the end marker. *)
Theorem scroll_loop_turns (b : browser) (fuel : nat) (start : Q) (w : world) finish w' :
  scroll_loop b fuel start w = Some (finish, w') ->
  exists n, (1 <= n <= fuel)%nat /\
            trace w' = trace w ++ cycles n /\
            ticks w' = (ticks w + 3 * n)%nat /\
            fs w' = fs w.
Proof.
  intros H. pose proof (scroll_loop_effect b _ _ _ _ _ H) as [Hfs _].
  apply scroll_loop_exact in H as (n & Hn & Htr & Htk & _).
  exists (S n). repeat split; [lia|lia|exact Htr|exact Htk|exact Hfs].
Qed.

Lemma scroll_loop_turns_witness :
  exists finish w',
    scroll_loop slow_marker_browser 101 (clock empty_world) empty_world = Some (finish, w') /\
    exists n, (1 <= n <= 101)%nat /\
              trace w' = trace empty_world ++ cycles n /\
              ticks w' = (ticks empty_world + 3 * n)%nat /\
              fs w' = fs empty_world.
Proof.
  destruct (scroll_loop slow_marker_browser 101 (clock empty_world) empty_world)
    as [[finish w']|] eqn:E.
  - exists finish, w'. split; [reflexivity|].
    exact (scroll_loop_turns _ _ _ _ _ _ E).
  - vm_compute in E. discriminate E.
Defined.

(** X6: the scroll loop is left only when its last look found the end
    marker or when more than [SCROLL_TIME_DURATION_S] had passed at its last
    time sample; no earlier look found the marker. *)
Theorem scroll_loop_exit (b : browser) (fuel : nat) (start : Q) (w : world) finish w' :
  scroll_loop b fuel start w = Some (finish, w') ->
  exists n,
    ticks w' = (ticks w + 3 * S n)%nat /\
    (end_marker b (ticks w + 3 * n + 2) = true \/
     (SCROLL_TIME_DURATION_S < finish - start)%Q) /\
    (forall k, (k < n)%nat -> end_marker b (ticks w + 3 * k + 2) = false).
Proof.
  intros H. apply scroll_loop_exact in H as (n & _ & _ & Htk & Hexit & Hearly).
  exists n. auto.
Qed.

Lemma scroll_loop_exit_witness :
  exists finish w',
    scroll_loop slow_marker_browser 101 (clock empty_world) empty_world = Some (finish, w') /\
    exists n,
      ticks w' = (ticks empty_world + 3 * S n)%nat /\
      (end_marker slow_marker_browser (ticks empty_world + 3 * n + 2) = true \/
       (SCROLL_TIME_DURATION_S < finish - clock empty_world)%Q) /\
      (forall k, (k < n)%nat ->
                 end_marker slow_marker_browser (ticks empty_world + 3 * k + 2) = false).
Proof.
  destruct (scroll_loop slow_marker_browser 101 (clock empty_world) empty_world)
    as [[finish w']|] eqn:E.
  - exists finish, w'. split; [reflexivity|].
    exact (scroll_loop_exit _ _ _ _ _ _ E).
  - vm_compute in E. discriminate E.
Defined.

Lemma get_search_results_urls_found b fuel w urls w' :
  _get_search_results_urls b fuel w = Some (Ok urls, w') -> pane_found b (ticks w) = true.
Proof.
  unfold _get_search_results_urls, hover_search_results.
  destruct (pane_found b (ticks w)); [reflexivity|discriminate].
Qed.

(** X7: [search] on an engine without page raises [ValueError] and calls
    nothing.  On an engine with a page it navigates once to the search URL
    and leaves the files alone; when the results pane is found it ends
    normally, if it ends, after one discovery pass, and when the pane is
    not found it ends with [AttributeError] right after the query for the
    pane.  With paced pauses it ends. *)
Theorem search_once (b : browser) (fuel : nat) (self : engine) (w : world) :
  (page self = false ->
   exists msg, search b fuel self w = Some (Raise (ValueError msg), w)) /\
  (page self = true ->
   (paced b -> (101 <= fuel)%nat -> exists res, search b fuel self w = Some res) /\
   forall r w', search b fuel self w = Some (r, w') ->
     fs w' = fs w /\
     ((r = Ok () /\ pane_found b (S (ticks w)) = true /\
       exists pass, trace w' = trace w ++ Goto (url self) :: pass /\ discovery_pass pass) \/
      ((exists msg, r = Raise (AttributeError msg)) /\
       pane_found b (S (ticks w)) = false /\
       trace w' = trace w ++ [Goto (url self); QuerySelector LeftBar]))).
Proof.
  split; intros Hpage.
  - unfold search. rewrite Hpage. cbn. eauto.
  - split.
    + intros Hpaced Hfuel. unfold search. rewrite Hpage. cbn.
      destruct (get_search_results_urls_returns b fuel (await b (Goto (url self)) w)
                  Hpaced Hfuel) as [[[urls|e] w1] ->]; eauto.
    + intros [[]|e] w' H.
      * pose proof H as H'.
        apply search_effect in H' as (_ & Hfs & pass & Htr & Hpass).
        split; [exact Hfs|left]. split; [reflexivity|]. split; [|eauto].
        unfold search in H. rewrite Hpage in H. cbn [negb] in H.
        destruct (_get_search_results_urls b fuel (await b (Goto (url self)) w))
          as [[[urls|e] w1]|] eqn:E; try discriminate.
        apply get_search_results_urls_found in E. exact E.
      * apply search_raise in H as [(Hp & _)|(_ & Hmsg & Hpane & ->)]; [congruence|].
        destruct Hmsg as [msg ->].
        split; [reflexivity|right]. split; [eauto|]. split; [exact Hpane|].
        cbn. rewrite <- app_assoc. reflexivity.
Qed.

(** ** More on the loop over the links *)

(** What the iteration of the loop for the link [place_url] comes to: the
    comparison of its coordinate with the reference, or [TypeError] for a
    link without address. *)
Definition verdict (main : string * string) (place_url : option string) : result bool :=
  match place_url with
  | Some u => coords_match main (extract_lat_lang_from_url u)
  | None => Raise (TypeError "argument of type 'NoneType' is not iterable")
  end.

(** The comparison answers true. *)
Definition accepts (main : string * string) (place_url : option string) : bool :=
  match verdict main place_url with
  | Ok true => true
  | _ => false
  end.

(** The comparison answers, it does not raise. *)
Definition numeric (main : string * string) (place_url : option string) : bool :=
  match verdict main place_url with
  | Ok _ => true
  | Raise _ => false
  end.

(** The links up to and including the first one whose iteration raises. *)
Fixpoint visited (main : string * string) (urls : list (option string))
  : list (option string) :=
  match urls with
  | [] => []
  | u :: urls' => u :: (if numeric main u then visited main urls' else [])
  end.

(** The calls made for the links [urls], one after the other. *)
Fixpoint visits_of (urls : list (option string)) : list event :=
  match urls with
  | [] => []
  | Some u :: urls' => Goto u :: Content :: visits_of urls'
  | None :: urls' => GotoNone :: Content :: visits_of urls'
  end.

Section LinksExact.

Variable b : browser.
Variable soup_text : field -> string -> option string.

Lemma run_links_exact main urls : forall self w r self' w',
  run_links b soup_text main urls self w = (r, self', w') ->
  trace w' = trace w ++ visits_of (visited main urls) /\
  (r = Ok () <-> forallb (numeric main) urls = true) /\
  (forall e, r = Raise e ->
     exists done u rest, urls = done ++ u :: rest /\
       forallb (numeric main) done = true /\ verdict main u = Raise e) /\
  exists rows,
    _entries self' = _entries self ++ rows /\
    row_url <$> rows = List.filter (accepts main) (visited main urls).
Proof.
  induction urls as [|[u|] urls IH]; intros self w r self' w'.
  - intros [= <- <- <-]. cbn. rewrite app_nil_r. repeat split; [discriminate|].
    exists []. rewrite app_nil_r. split; reflexivity.
  - cbn [run_links].
    destruct (parse_data_row soup_text self (content b (ticks (await b (Goto u) w))) u)
      as (Hurl & _).
    set (data := _parse_data_with_soup soup_text self _ u) in *.
    destruct (coords_match main (extract_lat_lang_from_url u)) as [[|]|e] eqn:E;
      assert (Ha : accepts main (Some u)
                   = match coords_match main (extract_lat_lang_from_url u)
                     with Ok true => true | _ => false end) by reflexivity;
      assert (Hn : numeric main (Some u)
                   = match coords_match main (extract_lat_lang_from_url u)
                     with Ok _ => true | Raise _ => false end) by reflexivity;
      rewrite E in Ha, Hn; cbn [visited forallb List.filter]; rewrite ?Ha, Hn;
      cbn [List.filter andb]; rewrite ?Ha.
    + intros H. apply IH in H as (Htr & Hr & Hraise & rows & He & Hrows).
      cbn [writerow with_fs await trace] in Htr. cbn [append_entry _entries] in He.
      split; [rewrite Htr; cbn [visits_of]; rewrite <- !app_assoc; reflexivity|].
      split; [exact Hr|]. split.
      * intros e He'. destruct (Hraise e He') as (done & u' & rest & -> & Hd & Hv).
        exists (Some u :: done), u', rest. cbn [forallb]. rewrite Hn, Hd. auto.
      * exists (data :: rows). split; [rewrite He, <- app_assoc; reflexivity|].
        rewrite !fmap_cons, Hurl, Hrows. reflexivity.
    + intros H. apply IH in H as (Htr & Hr & Hraise & rows & He & Hrows).
      cbn [await trace] in Htr.
      split; [rewrite Htr; cbn [visits_of]; rewrite <- !app_assoc; reflexivity|].
      split; [exact Hr|]. split; [|exists rows; split; assumption].
      intros e He'. destruct (Hraise e He') as (done & u' & rest & -> & Hd & Hv).
      exists (Some u :: done), u', rest. cbn [forallb]. rewrite Hn, Hd. auto.
    + intros [= <- <- <-].
      split; [cbn; rewrite <- !app_assoc; reflexivity|].
      split; [split; discriminate|]. split.
      * intros e' [= <-]. exists [], (Some u), urls. cbn [verdict]. auto.
      * exists []. rewrite app_nil_r. split; reflexivity.
  - cbn [run_links]. intros [= <- <- <-].
    split; [cbn; rewrite <- !app_assoc; reflexivity|].
    split; [split; discriminate|]. split.
    + intros e' [= <-]. exists [], None, urls. auto.
    + exists []. rewrite app_nil_r. split; reflexivity.
Qed.

End LinksExact.

(** X8: the data rows of a run are the rows of exactly the visited links
    whose comparison answers true, in the order of discovery and as often
    as the link was discovered: no such link is left out.  A run that does
    not find the results pane visits no link and writes nothing. *)
Theorem run_rows_complete (b : browser) (soup_text : field -> string -> option string)
        (fuel : nat) (self : engine) (w : world) r self' w' :
  run b soup_text fuel self w = Some (r, self', w') -> page self = true ->
  ((exists msg, r = Raise (AttributeError msg)) /\
   _entries self' = _entries self /\ fs w' = fs w) \/
  exists w1 urls w2 rows,
    search b fuel self w = Some (Ok (), w1) /\
    _get_search_results_urls b fuel w1 = Some (Ok urls, w2) /\
    fs w' !! FILENAME = Some (file FILENAME w ++ FIELD_NAMES :: rows) /\
    _entries self' = _entries self ++ rows /\
    row_url <$> rows =
      List.filter (accepts (extract_lat_lang_from_url (url self)))
                  (visited (extract_lat_lang_from_url (url self)) urls).
Proof.
  intros H Hpage.
  destruct (run_cases _ _ _ _ _ _ _ _ H Hpage)
    as [(Hmsg & -> & Hfs0 & _)|(w1 & urls & w2 & Hs & Hu & Hl)]; [left; auto|right].
  destruct (run_effect _ _ _ _ _ _ _ _ _ _ _ Hs Hu Hl)
    as (rows & p1 & p2 & visits & He & Hfs & _).
  apply run_links_exact in Hl as (_ & _ & _ & rows' & He' & Hrows).
  rewrite He in He'. apply app_inv_head in He'. subst rows'.
  exists w1, urls, w2, rows. repeat split; try assumption.
  rewrite Hfs. apply lookup_insert_eq.
Qed.

Lemma run_rows_complete_witness :
  exists r self' w',
    run (demo_browser [near_link; far_link; near_link]) demo_soup 1 fresh_engine empty_world
      = Some (r, self', w') /\
    (((exists msg, r = Raise (AttributeError msg)) /\
      _entries self' = _entries fresh_engine /\ fs w' = fs empty_world) \/
     exists w1 urls w2 rows,
       search (demo_browser [near_link; far_link; near_link]) 1 fresh_engine empty_world
         = Some (Ok (), w1) /\
       _get_search_results_urls (demo_browser [near_link; far_link; near_link]) 1 w1
         = Some (Ok urls, w2) /\
       fs w' !! FILENAME = Some (file FILENAME empty_world ++ FIELD_NAMES :: rows) /\
       _entries self' = _entries fresh_engine ++ rows /\
       row_url <$> rows =
         List.filter (accepts (extract_lat_lang_from_url (url fresh_engine)))
                     (visited (extract_lat_lang_from_url (url fresh_engine)) urls)).
Proof.
  destruct (run (demo_browser [near_link; far_link; near_link]) demo_soup 1
                fresh_engine empty_world) as [[[r self'] w']|] eqn:E.
  - exists r, self', w'. split; [reflexivity|].
    exact (run_rows_complete _ _ _ _ _ _ _ _ E eq_refl).
  - vm_compute in E. discriminate E.
Defined.

(** Of the links [near_link; far_link; near_link] the two near ones are
    written, twice the same row. *)
Example run_rows_twice :
  observed (run (demo_browser [near_link; far_link; near_link]) demo_soup 1
                fresh_engine empty_world)
  = Some (Ok (), [near_row; near_row], [FIELD_NAMES; near_row; near_row],
          [Goto astana_url;
           QuerySelector LeftBar; Hover; Sleep (1 # 2);
           Wheel 1000; Sleep SLEEP_PER_SCROLL_S; QuerySelector EndMarker;
           QuerySelectorAll ResultLinks; GetAttribute; GetAttribute; GetAttribute;
           QuerySelector LeftBar; Hover; Sleep (1 # 2);
           Wheel 1000; Sleep SLEEP_PER_SCROLL_S; QuerySelector EndMarker;
           QuerySelectorAll ResultLinks; GetAttribute; GetAttribute; GetAttribute;
           Open FILENAME Append;
           Goto near_link; Content; Goto far_link; Content; Goto near_link; Content]).
Proof. vm_compute. reflexivity. Qed.

(** A browser that lists the links [links], some of them without address. *)
Definition href_browser (links : list (option string)) : browser :=
  {| duration := fun _ e => match e with Sleep d => d | _ => 0%Q end;
     pane_found := fun _ => true;
     end_marker := fun _ => true;
     hrefs := fun _ => links;
     content := fun _ => "<html></html>" |}.



Example visited_stops :
  visited (extract_lat_lang_from_url astana_url)
          [Some near_link; Some bare_link; Some far_link]
  = [Some near_link; Some bare_link].
Proof. vm_compute. reflexivity. Qed.

(** A link without address ends the run with [TypeError], the links after
    it unvisited, the rows accepted before it kept. *)
Example run_link_without_address :
  observed (run (href_browser [Some near_link; None; Some far_link]) demo_soup 1
                fresh_engine empty_world)
  = Some (Raise (TypeError "argument of type 'NoneType' is not iterable"),
          [near_row], [FIELD_NAMES; near_row],
          [Goto astana_url;
           QuerySelector LeftBar; Hover; Sleep (1 # 2);
           Wheel 1000; Sleep SLEEP_PER_SCROLL_S; QuerySelector EndMarker;
           QuerySelectorAll ResultLinks; GetAttribute; GetAttribute; GetAttribute;
           QuerySelector LeftBar; Hover; Sleep (1 # 2);
           Wheel 1000; Sleep SLEEP_PER_SCROLL_S; QuerySelector EndMarker;
           QuerySelectorAll ResultLinks; GetAttribute; GetAttribute; GetAttribute;
           Open FILENAME Append;
           Goto near_link; Content; GotoNone; Content]).
Proof. vm_compute. reflexivity. Qed.

(** ** The filter and the page *)

Section TwoSoups.

Variable b : browser.
Variables soup1 soup2 : field -> string -> option string.

Lemma parse_data_tail soup self html u :
  drop 4 (_parse_data_with_soup soup self html u)
  = [u; (extract_lat_lang_from_url u).1; (extract_lat_lang_from_url u).2].
Proof.
  unfold _parse_data_with_soup. destruct (extract_lat_lang_from_url u). reflexivity.
Qed.

(** Two loops over the same links that differ in what the pages hold go the
    same way. *)
Lemma run_links_two_soups main urls : forall s1 w1 s2 w2 r1 s1' w1',
  ticks w1 = ticks w2 -> clock w1 = clock w2 -> trace w1 = trace w2 ->
  drop 4 <$> _entries s1 = drop 4 <$> _entries s2 ->
  run_links b soup1 main urls s1 w1 = (r1, s1', w1') ->
  exists s2' w2',
    run_links b soup2 main urls s2 w2 = (r1, s2', w2') /\
    ticks w1' = ticks w2' /\ clock w1' = clock w2' /\ trace w1' = trace w2' /\
    drop 4 <$> _entries s1' = drop 4 <$> _entries s2'.
Proof.
  induction urls as [|[u|] urls IH]; intros s1 w1 s2 w2 r1 s1' w1' Htk Hck Htr He.
  - intros [= <- <- <-]. exists s2, w2. auto.
  - cbn [run_links].
    destruct (coords_match main (extract_lat_lang_from_url u)) as [[|]|e].
    + intros H. eapply IH in H; [exact H| | | |].
      * cbn. rewrite Htk. reflexivity.
      * cbn. rewrite Htk, Hck. reflexivity.
      * cbn. rewrite Htr. reflexivity.
      * cbn [append_entry _entries]. rewrite !fmap_app, He. cbn [fmap list_fmap].
        rewrite !parse_data_tail. reflexivity.
    + intros H. eapply IH in H; [exact H| | | |exact He].
      * cbn. rewrite Htk. reflexivity.
      * cbn. rewrite Htk, Hck. reflexivity.
      * cbn. rewrite Htr. reflexivity.
    + intros [= <- <- <-]. eexists _, _. split; [reflexivity|].
      cbn. rewrite Htk, Hck, Htr. auto.
  - cbn [run_links]. intros [= <- <- <-]. eexists _, _. split; [reflexivity|].
    cbn. rewrite Htk, Hck, Htr. auto.
Qed.

End TwoSoups.

(** X10: what the detail pages hold plays no part in the filter: two runs
    that differ only in the fields read from the pages end the same way,
    make the same calls at the same times and keep entries that agree from
    the link on, that is in link, latitude and longitude. *)
Theorem run_ignores_page_fields (b : browser)
        (soup1 soup2 : field -> string -> option string)
        (fuel : nat) (self : engine) (w : world) r s1 w1 :
  run b soup1 fuel self w = Some (r, s1, w1) ->
  exists s2 w2,
    run b soup2 fuel self w = Some (r, s2, w2) /\
    trace w2 = trace w1 /\ clock w2 = clock w1 /\
    drop 4 <$> _entries s2 = drop 4 <$> _entries s1.
Proof.
  unfold run. destruct (page self); cbn [negb].
  - destruct (search b fuel self w) as [[[[]|e] w0]|]; [| |discriminate].
    + destruct (_get_search_results_urls b fuel w0) as [[[urls|e] w0']|]; [| |discriminate].
      * intros [= H].
        eapply (run_links_two_soups b soup1 soup2) in H
          as (s2 & w2 & -> & _ & Hck & Htr & He); try reflexivity.
        exists s2, w2.
        repeat split; [symmetry; exact Htr|symmetry; exact Hck|symmetry; exact He].
      * intros [= <- <- <-]. eexists _, _. repeat split.
    + intros [= <- <- <-]. eexists _, _. repeat split.
  - intros [= <- <- <-]. eexists _, _. repeat split.
Qed.

Lemma run_ignores_page_fields_witness :
  exists r s1 w1,
    run (demo_browser [near_link; far_link]) demo_soup 1 fresh_engine empty_world
      = Some (r, s1, w1) /\
    exists s2 w2,
      run (demo_browser [near_link; far_link]) (fun _ _ => None) 1 fresh_engine empty_world
        = Some (r, s2, w2) /\
      trace w2 = trace w1 /\ clock w2 = clock w1 /\
      drop 4 <$> _entries s2 = drop 4 <$> _entries s1.
Proof.
  destruct (run (demo_browser [near_link; far_link]) demo_soup 1 fresh_engine empty_world)
    as [[[r s1] w1]|] eqn:E.
  - exists r, s1, w1. split; [reflexivity|].
    exact (run_ignores_page_fields _ demo_soup (fun _ _ => None) _ _ _ _ _ _ E).
  - vm_compute in E. discriminate E.
Defined.

(** ** The comparison as a relation *)

Lemma pyfloat_eqb_sym x y : PyFloat.eqb x y = PyFloat.eqb y x.
Proof.
  destruct x as [a|a], y as [c|c]; cbn; try reflexivity.
  - unfold Qeq_bool. apply Z.eqb_sym.
  - destruct a, c; reflexivity.
Qed.

Lemma same_value_refl x : PyFloat.same_value x x.
Proof. destruct x; cbn; reflexivity. Qed.

Lemma same_value_trans x y z :
  PyFloat.same_value x y -> PyFloat.same_value y z -> PyFloat.same_value x z.
Proof.
  destruct x, y, z; cbn; try contradiction; try congruence.
  intros H1 H2. rewrite H1. exact H2.
Qed.

Lemma coords_match_ok main place v :
  coords_match main place = Ok v ->
  exists a c d e,
    PyFloat.of_string main.1 = Some a /\ PyFloat.of_string main.2 = Some c /\
    PyFloat.of_string place.1 = Some d /\ PyFloat.of_string place.2 = Some e /\
    v = PyFloat.eqb (PyFloat.round1 a) (PyFloat.round1 d) &&
        PyFloat.eqb (PyFloat.round1 c) (PyFloat.round1 e).
Proof.
  unfold coords_match.
  destruct (float_inv main.1) as [(a & Ha & ->)|(_ & msg & ->)]; [|discriminate].
  destruct (float_inv main.2) as [(c & Hc & ->)|(_ & msg & ->)]; [|discriminate].
  destruct (float_inv place.1) as [(d & Hd & ->)|(_ & msg & ->)]; [|discriminate].
  destruct (float_inv place.2) as [(e & He & ->)|(_ & msg & ->)]; [|discriminate].
  cbn. intros [= <-]. exists a, c, d, e. auto.
Qed.

Lemma coords_match_value main place a c d e :
  PyFloat.of_string main.1 = Some a -> PyFloat.of_string main.2 = Some c ->
  PyFloat.of_string place.1 = Some d -> PyFloat.of_string place.2 = Some e ->
  coords_match main place
  = Ok (PyFloat.eqb (PyFloat.round1 a) (PyFloat.round1 d) &&
        PyFloat.eqb (PyFloat.round1 c) (PyFloat.round1 e)).
Proof.
  intros Ha Hc Hd He. unfold coords_match.
  rewrite (float_ok _ _ Ha), (float_ok _ _ Hc), (float_ok _ _ Hd), (float_ok _ _ He).
  reflexivity.
Qed.

(** X11: on coordinates that are numbers the comparison of [run] is an
    equivalence: a coordinate matches itself, the answer does not depend on
    which side is the reference, and two coordinates that match a third one
    match each other. *)
Theorem coords_match_equivalence :
  (forall p a c,
      PyFloat.of_string p.1 = Some a -> PyFloat.of_string p.2 = Some c ->
      coords_match p p = Ok true) /\
  (forall p q v, coords_match p q = Ok v -> coords_match q p = Ok v) /\
  (forall p q r,
      coords_match p q = Ok true -> coords_match q r = Ok true ->
      coords_match p r = Ok true).
Proof.
  split; [|split].
  - intros p a c Ha Hc. rewrite (coords_match_value p p a c a c) by assumption.
    f_equal. apply andb_true_iff. split; apply PyFloat.eqb_same_value, same_value_refl.
  - intros p q v H. apply coords_match_ok in H as (a & c & d & e & Ha & Hc & Hd & He & ->).
    rewrite (coords_match_value q p d e a c) by assumption.
    rewrite (pyfloat_eqb_sym (PyFloat.round1 d)), (pyfloat_eqb_sym (PyFloat.round1 e)).
    reflexivity.
  - intros p q r H1 H2.
    apply coords_match_ok in H1 as (a & c & d & e & Ha & Hc & Hd & He & H1).
    apply coords_match_ok in H2 as (d' & e' & f & g & Hd' & He' & Hf & Hg & H2).
    rewrite Hd in Hd'. injection Hd' as <-. rewrite He in He'. injection He' as <-.
    rewrite (coords_match_value p r a c f g) by assumption. f_equal.
    symmetry in H1, H2.
    apply andb_true_iff in H1 as [H1a H1c], H2 as [H2a H2c].
    apply PyFloat.eqb_same_value in H1a, H1c, H2a, H2c.
    apply andb_true_iff. split; apply PyFloat.eqb_same_value.
    + eapply same_value_trans; eassumption.
    + eapply same_value_trans; eassumption.
Qed.

(** ** The dump after the run *)

Lemma save_to_csv_raises filename self w :
  _entries self = [] ->
  exists msg, save_to_csv filename self w = (Raise (NotImplementedError msg), w).
Proof. unfold save_to_csv. intros ->. eauto. Qed.

Lemma writerows_clock name rs : forall w,
  clock (writerows name rs w) = clock w /\ ticks (writerows name rs w) = ticks w.
Proof.
  unfold writerows. induction rs as [|r rs IH]; intros w; cbn [foldl]; [split; reflexivity|].
  destruct (IH (writerow name r w)) as [-> ->]. split; reflexivity.
Qed.

Lemma save_to_csv_ok filename self w :
  _entries self <> [] ->
  exists w',
    save_to_csv filename self w = (Ok (), w') /\
    fs w' = <[filename_or_default filename := FIELD_NAMES :: _entries self]> (fs w) /\
    trace w' = trace w ++ [Open (filename_or_default filename) Truncate] /\
    clock w' = clock w /\ ticks w' = ticks w.
Proof.
  unfold save_to_csv. intros Hne.
  destruct (_entries self) as [|e es] eqn:E; [contradiction|].
  eexists. split; [reflexivity|].
  set (name := filename_or_default filename).
  set (w1 := writerow name FIELD_NAMES (open name Truncate w)).
  assert (fs w1 = <[name := [FIELD_NAMES]]> (fs w)) as Hfs1.
  { unfold w1. rewrite (writerow_fs _ _ _ []) by apply lookup_insert_eq.
    cbn. apply insert_insert_eq. }
  split; [|split].
  - rewrite (writerows_fs _ _ _ [FIELD_NAMES]) by (rewrite Hfs1; apply lookup_insert_eq).
    rewrite Hfs1, insert_insert_eq. reflexivity.
  - rewrite writerows_trace. reflexivity.
  - destruct (writerows_clock name (e :: es) w1) as [-> ->]. split; reflexivity.
Qed.

(** X12: after the first run of an engine the dump holds exactly the header
    and the rows that the run streamed to the sink, in the same order; when
    the run accepted no record the dump raises [NotImplementedError] and
    writes nothing, although the run ended normally and left a header in
    the sink.  After a run that did not find the results pane, and so left
    the sink alone, the dump raises [NotImplementedError] as well. *)
Theorem save_to_csv_after_run (b : browser) (soup_text : field -> string -> option string)
        (fuel : nat) (filename : option string) (self : engine) (w : world) r self' w' :
  run b soup_text fuel self w = Some (r, self', w') ->
  page self = true -> _entries self = [] ->
  ((exists msg, r = Raise (AttributeError msg)) /\ fs w' = fs w /\
   exists msg, save_to_csv filename self' w' = (Raise (NotImplementedError msg), w')) \/
  exists rows,
    fs w' !! FILENAME = Some (file FILENAME w ++ FIELD_NAMES :: rows) /\
    (rows = [] ->
     exists msg, save_to_csv filename self' w' = (Raise (NotImplementedError msg), w')) /\
    (rows <> [] ->
     exists w'',
       save_to_csv filename self' w' = (Ok (), w'') /\
       fs w'' = <[filename_or_default filename := FIELD_NAMES :: rows]> (fs w')).
Proof.
  intros H Hpage Hnil.
  destruct (run_cases _ _ _ _ _ _ _ _ H Hpage)
    as [(Hmsg & -> & Hfs0 & _)|(w1 & urls & w2 & Hs & Hu & Hl)]; [left|right].
  { split; [exact Hmsg|]. split; [exact Hfs0|]. apply save_to_csv_raises, Hnil. }
  destruct (run_effect _ _ _ _ _ _ _ _ _ _ _ Hs Hu Hl)
    as (rows & p1 & p2 & visits & He & Hfs & _).
  rewrite Hnil in He. cbn in He.
  exists rows. split; [rewrite Hfs; apply lookup_insert_eq|]. split.
  - intros ->. apply save_to_csv_raises, He.
  - intros Hne. rewrite <- He in Hne.
    destruct (save_to_csv_ok filename self' w' Hne) as (w'' & Hsave & Hfs' & _).
    exists w''. rewrite <- He. auto.
Qed.

Lemma save_to_csv_after_run_witness :
  exists r self' w',
    run (demo_browser [near_link; far_link]) demo_soup 1 fresh_engine empty_world
      = Some (r, self', w') /\
    (((exists msg, r = Raise (AttributeError msg)) /\ fs w' = fs empty_world /\
      exists msg, save_to_csv (Some "leads.csv") self' w'
                  = (Raise (NotImplementedError msg), w')) \/
     exists rows,
       fs w' !! FILENAME = Some (file FILENAME empty_world ++ FIELD_NAMES :: rows) /\
       (rows = [] ->
        exists msg, save_to_csv (Some "leads.csv") self' w'
                    = (Raise (NotImplementedError msg), w')) /\
       (rows <> [] ->
        exists w'',
          save_to_csv (Some "leads.csv") self' w' = (Ok (), w'') /\
          fs w'' = <[filename_or_default (Some "leads.csv") := FIELD_NAMES :: rows]>
                     (fs w'))).
Proof.
  destruct (run (demo_browser [near_link; far_link]) demo_soup 1 fresh_engine empty_world)
    as [[[r self'] w']|] eqn:E.
  - exists r, self', w'. split; [reflexivity|].
    exact (save_to_csv_after_run _ _ _ (Some "leads.csv") _ _ _ _ _ E eq_refl eq_refl).
  - vm_compute in E. discriminate E.
Defined.

(** X13: the dump overwrites: what it leaves does not depend on what the
    target held, it changes no other file, and dumping again changes no
    file at all. *)
Theorem save_to_csv_overwrites (filename : option string) (self : engine) (w : world) :
  _entries self <> [] ->
  exists w1 w2,
    save_to_csv filename self w = (Ok (), w1) /\
    save_to_csv filename self w1 = (Ok (), w2) /\
    fs w1 = <[filename_or_default filename := FIELD_NAMES :: _entries self]>
              (delete (filename_or_default filename) (fs w)) /\
    fs w2 = fs w1.
Proof.
  intros Hne.
  destruct (save_to_csv_ok filename self w Hne) as (w1 & H1 & Hfs1 & _).
  destruct (save_to_csv_ok filename self w1 Hne) as (w2 & H2 & Hfs2 & _).
  exists w1, w2. repeat split; try assumption.
  - rewrite Hfs1. symmetry. apply insert_delete_eq.
  - rewrite Hfs2, Hfs1. apply insert_insert_eq.
Qed.

Lemma save_to_csv_overwrites_witness :
  exists w1 w2,
    save_to_csv None (append_entry near_row fresh_engine)
                (with_fs {[FILENAME := [near_row; near_row]]} empty_world) = (Ok (), w1) /\
    save_to_csv None (append_entry near_row fresh_engine) w1 = (Ok (), w2) /\
    fs w1 = <[filename_or_default None :=
                FIELD_NAMES :: _entries (append_entry near_row fresh_engine)]>
              (delete (filename_or_default None)
                      (fs (with_fs {[FILENAME := [near_row; near_row]]} empty_world))) /\
    fs w2 = fs w1.
Proof.
  apply (save_to_csv_overwrites None (append_entry near_row fresh_engine)
           (with_fs {[FILENAME := [near_row; near_row]]} empty_world)).
  discriminate.
Defined.

(** ** The command line program, run.py *)

(** [init_browser]: the browser is launched and [self.page] bound.  The
    launch is no call on the page and is not numbered among them. *)
Definition init_browser (self : engine) : engine :=
  {| url := url self; page := true; _entries := _entries self |}.

Definition LEADS : string := "leads.csv".

(** [main(query, location, zoom)].  The engine is built with [zoom=int(12)],
    whatever [zoom] is; [coords] stands for what the geocoder answers, as in
    [__init__].  Closing the browser in the [finally] block changes nothing
    of what is modelled. *)
Definition main (b : browser) (soup_text : field -> string -> option string) (fuel : nat)
           (query location : string) (coords : list string) (zoom : string) (w : world)
  : option (result unit * engine * world) :=
  let engine := init_browser (__init__ query location coords "12") in
  match search b fuel engine w with
  | None => None
  | Some (Raise e, w) => Some (Raise e, engine, w)
  | Some (Ok _, w) =>
      match run b soup_text fuel engine w with
      | None => None
      | Some (Raise e, engine, w) => Some (Raise e, engine, w)
      | Some (Ok _, engine, w) =>
          let '(r, w) := save_to_csv (Some LEADS) engine w in
          Some (r, engine, w)
      end
  end.





(** With no record accepted the program ends with [NotImplementedError]
    after three discovery passes, a header appended to the sink. *)
Example main_nothing_accepted :
  observed (main (demo_browser [far_link]) demo_soup 1 "gym" "Astana"
                 ["51.1801"; "71.446"] "15" empty_world)
  = Some (Raise (NotImplementedError "Entries are empty, call .run() method first to save them"),
          [], [FIELD_NAMES],
          [Goto astana_url;
           QuerySelector LeftBar; Hover; Sleep (1 # 2);
           Wheel 1000; Sleep SLEEP_PER_SCROLL_S; QuerySelector EndMarker;
           QuerySelectorAll ResultLinks; GetAttribute;
           Goto astana_url;
           QuerySelector LeftBar; Hover; Sleep (1 # 2);
           Wheel 1000; Sleep SLEEP_PER_SCROLL_S; QuerySelector EndMarker;
           QuerySelectorAll ResultLinks; GetAttribute;
           QuerySelector LeftBar; Hover; Sleep (1 # 2);
           Wheel 1000; Sleep SLEEP_PER_SCROLL_S; QuerySelector EndMarker;
           QuerySelectorAll ResultLinks; GetAttribute;
           Open FILENAME Append;
           Goto far_link; Content]).
Proof. vm_compute. reflexivity. Qed.

(** With no results pane the program ends with [AttributeError] after the
    first query for it. *)
Example main_without_pane :
  observed (main no_pane_browser demo_soup 1 "gym" "Astana"
                 ["51.1801"; "71.446"] "15" empty_world)
  = Some (Raise (AttributeError "'NoneType' object has no attribute 'hover'"),
          [], [], [Goto astana_url; QuerySelector LeftBar]).
Proof. vm_compute. reflexivity. Qed.

(** ** One discovery pass, call by call *)

(** X15: a discovery pass first asks for the results pane, once.  When the
    pane is not found the pass ends there with [AttributeError].  When it
    is found, a finished pass has hovered over it once, waited half a
    second, made at least one scroll turn, and only then read the links,
    once: it returns what the links listed at that moment give as address,
    an address or none for each, in the order listed, after reading one
    attribute for each.  In both cases the pass leaves the files alone, and
    with paced pauses it does finish. *)
Theorem discovery_pass_calls (b : browser) (fuel : nat) (w : world) :
  (paced b -> (101 <= fuel)%nat ->
   exists res, _get_search_results_urls b fuel w = Some res) /\
  (forall r w',
      _get_search_results_urls b fuel w = Some (r, w') ->
      fs w' = fs w /\
      ((pane_found b (ticks w) = false /\
        (exists msg, r = Raise (AttributeError msg)) /\
        trace w' = trace w ++ [QuerySelector LeftBar]) \/
       (pane_found b (ticks w) = true /\
        exists n urls,
          (1 <= n <= fuel)%nat /\
          urls = hrefs b (ticks w + 3 + 3 * n) /\
          r = Ok urls /\
          trace w' = trace w ++ [QuerySelector LeftBar; Hover; Sleep (1 # 2)] ++ cycles n ++
                     QuerySelectorAll ResultLinks :: replicate (length urls) GetAttribute))).
Proof.
  split; [apply get_search_results_urls_returns|].
  intros r w'. unfold _get_search_results_urls, hover_search_results.
  destruct (pane_found b (ticks w)) eqn:Hpane.
  2:{ intros [= <- <-]. split; [reflexivity|left]. repeat split; eauto. }
  destruct (scroll_loop b fuel _ _) as [[finish w1]|] eqn:E; [|discriminate].
  pose proof (scroll_loop_effect b _ _ _ _ _ E) as [Hfs _].
  apply scroll_loop_exact in E as (n & Hn & Htr & Htk & _).
  unfold scrape_urls. intros [= <- <-].
  destruct (get_attributes_effect b (hrefs b (ticks w1))
              (await b (QuerySelectorAll ResultLinks) w1)) as [Hfs' Htr'].
  cbv zeta in Hfs', Htr'.
  split; [rewrite Hfs'; cbn [await fs]; rewrite Hfs; reflexivity|right].
  split; [reflexivity|].
  exists (S n), (hrefs b (ticks w1)). repeat split.
  - lia.
  - lia.
  - f_equal. rewrite Htk. cbn. lia.
  - rewrite Htr'. cbn [await trace]. rewrite Htr. cbn [await trace].
    repeat (rewrite <- !app_assoc || rewrite <- !app_comm_cons). reflexivity.
Qed.
